(** * Sensor statistics service with a result cache (app.py)

    A shallow embedding of the request handler [stats] of app.py together
    with its helpers [_parse_date], [_make_cache_key] and
    [_compute_stats_from_df], and the properties of the query normaliser,
    the aggregation engine and the result cache.

    Modelling choices.
    - Python [str] values are Rocq strings.  [str.strip] and [str.lower]
      are written out for ASCII strings, on which they are exactly
      Python's; the statements that compare the code with the wording of
      the specification are made for ASCII filter strings.
    - A cell of the column [value] is an int64 or a float64.  The
      reductions [Series.mean], [Series.min] and [Series.max] belong to
      pandas and are parameters of the development, like [pd.to_datetime]
      and [Timestamp.isoformat]; nothing is assumed of their arithmetic.
    - [pd.to_datetime] reads the wall clock for strings such as "now": the
      clock is an argument of every call.  It returns [NaT], a date
      without time zone, or a date with a time zone; comparing the column
      [timestamp], which holds dates without time zone, with a date that
      has one raises a [TypeError] that the handler does not catch.
    - The module globals [_df] and [_cache] are the two fields of an
      explicit state threaded through [stats]; the dictionary is a [gmap].
      Requests are handled one at a time: the lock and the interleaving of
      threads are not modelled. *)

From Stdlib Require Import ZArith String Ascii List Bool Lia.
From Stdlib Require Import Floats.PrimFloat Uint63.
From stdpp Require Import base option gmap strings pretty.
Import ListNotations.

Local Open Scope string_scope.

(** ** Python strings *)

Module PyStr.

(** [str.isspace] on one ASCII character: TAB..CR, FS..US and SPACE. *)
Definition isspace (c : ascii) : bool :=
  let n := nat_of_ascii c in
  ((9 <=? n)%nat && (n <=? 13)%nat) || ((28 <=? n)%nat && (n <=? 32)%nat).

(** [str.lower] on one ASCII character. *)
Definition lower_char (c : ascii) : ascii :=
  let n := nat_of_ascii c in
  if ((65 <=? n)%nat && (n <=? 90)%nat) then ascii_of_nat (n + 32) else c.

Fixpoint lower (s : string) : string :=
  match s with
  | EmptyString => EmptyString
  | String c s' => String (lower_char c) (lower s')
  end.

Fixpoint lstrip (s : string) : string :=
  match s with
  | EmptyString => EmptyString
  | String c s' => if isspace c then lstrip s' else s
  end.

Fixpoint rstrip (s : string) : string :=
  match s with
  | EmptyString => EmptyString
  | String c s' =>
      match rstrip s' with
      | EmptyString => if isspace c then EmptyString else String c EmptyString
      | r => String c r
      end
  end.

Definition strip (s : string) : string := rstrip (lstrip s).

(** A string made of white space only (the empty string included). *)
Fixpoint blank (s : string) : bool :=
  match s with
  | EmptyString => true
  | String c s' => isspace c && blank s'
  end.

(** [str.isascii]: every character is below 128. *)
Fixpoint isascii (s : string) : bool :=
  match s with
  | EmptyString => true
  | String c s' => (nat_of_ascii c <? 128)%nat && isascii s'
  end.

End PyStr.

(** ** The wording of the specification on strings

    "Trim whitespace and lowercase", said without the functions above. *)

Module Spec.

(** The white space characters: TAB, LF, VT, FF, CR, FS, GS, RS, US and
    SPACE. *)
Definition white (c : ascii) : Prop :=
  In (nat_of_ascii c) [9; 10; 11; 12; 13; 28; 29; 30; 31; 32]%nat.

(** An upper-case letter, A to Z. *)
Definition upper (c : ascii) : Prop :=
  (65 <= nat_of_ascii c /\ nat_of_ascii c <= 90)%nat.

(** [d] is [c] in lower case: an upper-case letter moves 32 places up to
    its lower-case form, any other character stays. *)
Definition lower_of (c d : ascii) : Prop :=
  (upper c /\ nat_of_ascii d = (nat_of_ascii c + 32)%nat) \/
  (~ upper c /\ d = c).

(** [t] is [s] in lower case, character by character. *)
Inductive lowercased : string -> string -> Prop :=
  | lowercased_empty : lowercased "" ""
  | lowercased_char c d s t :
      lower_of c d -> lowercased s t -> lowercased (String c s) (String d t).

(** A string of white space. *)
Fixpoint all_white (s : string) : Prop :=
  match s with
  | EmptyString => True
  | String c s' => white c /\ all_white s'
  end.

(** [t] neither begins nor ends with white space. *)
Definition tight (t : string) : Prop :=
  (forall c r, t = String c r -> ~ white c) /\
  (forall r c, t = r +:+ String c "" -> ~ white c).

(** [t] is [s] without the white space at its two ends. *)
Definition trimmed (s t : string) : Prop :=
  exists a b, s = a +:+ t +:+ b /\ all_white a /\ all_white b /\ tight t.

(** [t] is [s] trimmed and lowercased. *)
Definition canonical (s t : string) : Prop :=
  exists u, trimmed s u /\ lowercased u t.

(** Two optional filter strings that are the same filter: both absent, or
    both present with one trimmed, lowercased form. *)
Definition same_filter (o1 o2 : option string) : Prop :=
  match o1, o2 with
  | None, None => True
  | Some x, Some y => exists t, canonical x t /\ canonical y t
  | _, _ => False
  end.

(** The same letter up to case. *)
Definition same_letter (c d : ascii) : Prop :=
  c = d \/
  (upper c /\ nat_of_ascii d = (nat_of_ascii c + 32)%nat) \/
  (upper d /\ nat_of_ascii c = (nat_of_ascii d + 32)%nat).

(** Two strings that differ at most in the case of their letters. *)
Inductive same_up_to_case : string -> string -> Prop :=
  | same_case_empty : same_up_to_case "" ""
  | same_case_char c d s t :
      same_letter c d -> same_up_to_case s t ->
      same_up_to_case (String c s) (String d t).

(** Two strings that differ at most in the white space around them and in
    the case of their letters. *)
Definition differ_in_padding_and_case_only (s1 s2 : string) : Prop :=
  exists a1 t1 b1 a2 t2 b2,
    s1 = a1 +:+ t1 +:+ b1 /\ s2 = a2 +:+ t2 +:+ b2 /\
    all_white a1 /\ all_white b1 /\ all_white a2 /\ all_white b2 /\
    same_up_to_case t1 t2.

End Spec.

(** ** Data model *)

(** A date without time zone, as the column [timestamp] holds them after
    [load_data] (datetime64[ns]), in nanoseconds; or pandas's [NaT]. *)
Inductive Timestamp : Type :=
  | NaT
  | Instant (ns : Z).

(** The result of [pd.to_datetime] on one string: [NaT] or a date without
    time zone, or a date with a time zone, given by its instant in UTC and
    its offset from UTC. *)
Inductive Datetime : Type :=
  | Naive (t : Timestamp)
  | Aware (utc_ns : Z) (utcoffset : Z).

(** A cell of the column [value] after [pd.to_numeric]: the column is
    int64 or float64, and [dropna] has removed the missing cells. *)
Inductive Number : Type :=
  | Int64 (n : Z)
  | Float64 (x : float).

(** One row of the data frame after [load_data]: the rows whose timestamp
    or value failed to convert were dropped, so both are proper values.
    The timestamps of the file are taken to be written without offset from
    UTC, so that the column holds dates without time zone, each given by
    its nanoseconds. *)
Record Reading : Type := mkReading {
  col_timestamp : Z;
  col_location : string;
  col_sensor : string;
  col_value : Number
}.

Definition DataFrame : Type := list Reading.

(** The dictionary built by [_compute_stats_from_df], keys "count", "avg",
    "min" and "max"; the last three hold Python floats. *)
Record AggregateResult : Type := mkAggregate {
  stat_count : nat;
  stat_avg : option float;
  stat_min : option float;
  stat_max : option float
}.

(** The tuple built by [_make_cache_key]. *)
Definition CacheKey : Type :=
  (option string * option string * option string * option string)%type.

(** What a call of the handler raises: [HTTPException(status_code=...,
    detail=...)], or the [TypeError] of a comparison in pandas, which
    nothing in the handler catches. *)
Inductive Raised : Type :=
  | mkHTTPException (status_code : Z) (detail : string)
  | TypeError.

(** The value of the response header X-Cache. *)
Inductive XCache : Type := HIT | MISS.

(** What a successful call hands back: the header and the "stats" object. *)
Record Response : Type := mkResponse {
  x_cache : XCache;
  body : AggregateResult
}.

(** The module globals. *)
Record State : Type := mkState {
  _df : option DataFrame;
  _cache : gmap CacheKey AggregateResult
}.

(** What the wall clock shows during one call of the handler: when
    [start_date] is parsed and when [end_date] is parsed, in nanoseconds. *)
Record Clock : Type := mkClock {
  clock_start : Z;
  clock_end : Z
}.

(** ** Row selection *)

(** The column [df["value"]]. *)
Definition values (df : DataFrame) : list Number := List.map col_value df.

(** [df["timestamp"] >= sd] and [df["timestamp"] <= ed] on one row, for a
    date without time zone; every comparison with [NaT] is false. *)
Definition ts_ge (t : Z) (sd : Timestamp) : bool :=
  match sd with
  | NaT => false
  | Instant b => (b <=? t)%Z
  end.

Definition ts_le (t : Z) (ed : Timestamp) : bool :=
  match ed with
  | NaT => false
  | Instant b => (t <=? b)%Z
  end.

(** [df[df[col] == v]] for a string column. *)
Definition where_eq (col : Reading -> string) (v : string) (df : DataFrame)
  : DataFrame :=
  List.filter (fun r => String.eqb (col r) v) df.

(** The four conditional selections of [stats], in the order of the code,
    for dates without time zone. *)
Definition select (data : DataFrame) (location sensor : option string)
    (sd ed : option Timestamp) : DataFrame :=
  let df := data in
  let df := match location with
            | Some l => where_eq col_location (PyStr.lower (PyStr.strip l)) df
            | None => df
            end in
  let df := match sensor with
            | Some s => where_eq col_sensor (PyStr.lower (PyStr.strip s)) df
            | None => df
            end in
  let df := match sd with
            | Some t => List.filter (fun r => ts_ge (col_timestamp r) t) df
            | None => df
            end in
  let df := match ed with
            | Some t => List.filter (fun r => ts_le (col_timestamp r) t) df
            | None => df
            end in
  df.

(** The date a comparison with the column is made with.  The column holds
    dates without time zone: pandas refuses to compare it with a date that
    has one, and does so before it looks at any row. *)
Definition operand (d : option Datetime) : option (option Timestamp) :=
  match d with
  | None => Some None
  | Some (Naive t) => Some (Some t)
  | Some (Aware _ _) => None
  end.

(** Lines 89 to 97 of [stats]: the selection, or [None] when one of the
    two comparisons raises [TypeError].  The selections by location and by
    sensor that come first have no effect of their own. *)
Definition filter_rows (data : DataFrame) (location sensor : option string)
    (sd ed : option Datetime) : option DataFrame :=
  match operand sd, operand ed with
  | Some sd', Some ed' => Some (select data location sensor sd' ed')
  | _, _ => None
  end.

(** ** The request handler *)

(** The part of pandas the handler relies on. *)
Class Pandas : Type := {
  (** [pd.to_datetime] on a string, given what the wall clock shows:
      [None] when it raises. *)
  to_datetime : Z -> string -> option Datetime;
  (** [Timestamp.isoformat]. *)
  isoformat : Datetime -> string;
  (** [float(s.mean())], [float(s.min())] and [float(s.max())] of a column
      with at least one cell. *)
  series_mean : list Number -> float;
  series_min : list Number -> float;
  series_max : list Number -> float
}.

Section Service.

Context {pd : Pandas}.

(** [_parse_date]; the left injection is the message of the [ValueError]
    it raises. *)
Definition _parse_date (now : Z) (s : option string)
  : string + option Datetime :=
  match s with
  | None => inr None
  | Some s =>
      match to_datetime now s with
      | Some t => inr (Some t)
      | None => inl ("Invalid date format: " +:+ s)
      end
  end.

Definition _make_cache_key (location sensor start_date end_date : option string)
  : CacheKey :=
  (match location with
   | None => None
   | Some l => Some (PyStr.lower (PyStr.strip l))
   end,
   match sensor with
   | None => None
   | Some s => Some (PyStr.lower (PyStr.strip s))
   end,
   match start_date with
   | None => None
   | Some d => Some d
   end,
   match end_date with
   | None => None
   | Some d => Some d
   end).

Definition _compute_stats_from_df (df : DataFrame) : AggregateResult :=
  let cnt := length df in
  if (cnt =? 0)%nat then mkAggregate 0 None None None
  else
    let avg := series_mean (values df) in
    let mn := series_min (values df) in
    let mx := series_max (values df) in
    mkAggregate cnt (Some avg) (Some mn) (Some mx).

(** The [try] block of [stats]: both dates are parsed, the first
    [ValueError] leaves the block. *)
Definition parse_dates (clock : Clock) (start_date end_date : option string)
  : string + (option Datetime * option Datetime) :=
  match _parse_date (clock_start clock) start_date with
  | inl e => inl e
  | inr sd =>
      match _parse_date (clock_end clock) end_date with
      | inl e => inl e
      | inr ed => inr (sd, ed)
      end
  end.

(** The key [stats] builds from the request and the parsed dates. *)
Definition request_key (location sensor : option string)
    (sd ed : option Datetime) : CacheKey :=
  _make_cache_key location sensor
    (match sd with Some t => Some (isoformat t) | None => None end)
    (match ed with Some t => Some (isoformat t) | None => None end).

(** The query normaliser as [stats] runs it: the dates are parsed, then
    the key is built from the raw strings and the parsed dates. *)
Definition normalize (clock : Clock)
    (location sensor start_date end_date : option string)
  : string + CacheKey :=
  match parse_dates clock start_date end_date with
  | inl e => inl e
  | inr (sd, ed) => inr (request_key location sensor sd ed)
  end.

(** [raw] is a date string of the request that [pd.to_datetime] rejects. *)
Definition offending (clock : Clock) (start_date end_date : option string)
    (raw : string) : Prop :=
  (start_date = Some raw /\ to_datetime (clock_start clock) raw = None) \/
  (end_date = Some raw /\ to_datetime (clock_end clock) raw = None).

(** [GET /stats]: the outcome of the call and the globals after it. *)
Definition stats (clock : Clock)
    (location sensor start_date end_date : option string)
    (st : State) : (Raised + Response) * State :=
  match _df st with
  | None => (inl (mkHTTPException 500 "Data not loaded"), st)
  | Some data =>
      match parse_dates clock start_date end_date with
      | inl e => (inl (mkHTTPException 400 e), st)
      | inr (sd, ed) =>
          let key := request_key location sensor sd ed in
          match _cache st !! key with
          | Some hit => (inr (mkResponse HIT hit), st)
          | None =>
              match filter_rows data location sensor sd ed with
              | None => (inl TypeError, st)
              | Some df =>
                  let stats_obj := _compute_stats_from_df df in
                  (inr (mkResponse MISS stats_obj),
                   mkState (_df st) (<[key := stats_obj]> (_cache st)))
              end
          end
      end
  end.

(** The states the service goes through once [load_data] has stored the
    frame [data] and the cache is still empty. *)
Inductive reachable (data : DataFrame) : State -> Prop :=
  | reachable_loaded : reachable data (mkState (Some data) ∅)
  | reachable_stats st clock location sensor start_date end_date :
      reachable data st ->
      reachable data (snd (stats clock location sensor start_date end_date st)).

(** Every cached object is the one the aggregation computes for the
    requests that map to its key, and these requests have dates the
    column can be compared with. *)
Definition coherent (data : DataFrame) (st : State) : Prop :=
  _df st = Some data /\
  forall location sensor sd ed v,
    _cache st !! request_key location sensor sd ed = Some v ->
    exists df,
      filter_rows data location sensor sd ed = Some df /\
      v = _compute_stats_from_df df.

End Service.

(** ** The reading of the specification *)

(** A row passes the filters the code applies; the boolean test that the
    selection is checked against. *)
Definition matches (location sensor : option string)
    (sd ed : option Timestamp) (r : Reading) : bool :=
  match location with
  | None => true
  | Some l => String.eqb (col_location r) (PyStr.lower (PyStr.strip l))
  end
  && match sensor with
     | None => true
     | Some s => String.eqb (col_sensor r) (PyStr.lower (PyStr.strip s))
     end
  && match sd with
     | None => true
     | Some t => ts_ge (col_timestamp r) t
     end
  && match ed with
     | None => true
     | Some t => ts_le (col_timestamp r) t
     end.



(** The filter strings of a request are ASCII. *)
Definition ascii_filter (o : option string) : Prop :=
  forall x, o = Some x -> PyStr.isascii x = true.

(** The canonical form of an optional filter string, as the key and the
    selection compute it. *)
Definition norm_field (o : option string) : option string :=
  match o with
  | None => None
  | Some s => Some (PyStr.lower (PyStr.strip s))
  end.

(** One of the two is absent and the other present. *)
Definition absent_vs_present {A B} (o1 : option A) (o2 : option B) : Prop :=
  (o1 = None /\ o2 <> None) \/ (o1 <> None /\ o2 = None).

(** The component of the key for an optional filter string, in the words
    of the specification: the absent marker, or the trimmed, lowercased
    string. *)
Definition key_field (o k : option string) : Prop :=
  match o with
  | None => k = None
  | Some x => exists t, k = Some t /\ Spec.canonical x t
  end.

(** [Timestamp.isoformat] writes different dates differently: it prints
    the date and time down to the nanosecond with the offset from UTC, if
    there is one, and [NaT] as itself. *)
Definition isoformat_injective {pd : Pandas} : Prop :=
  forall t1 t2 : Datetime, isoformat t1 = isoformat t2 -> t1 = t2.

(** The dates of a request do not depend on the wall clock: whatever it
    shows, [pd.to_datetime] gives the same result for them. *)
Definition clock_free {pd : Pandas} (start_date end_date : option string)
  : Prop :=
  forall now now' x,
    start_date = Some x \/ end_date = Some x ->
    to_datetime now x = to_datetime now' x.

(** The component of the key for an optional date string: the absent
    marker, or the ISO form of the date the string parses to. *)
Definition key_date {pd : Pandas} (now : Z) (o k : option string) : Prop :=
  match o with
  | None => k = None
  | Some x => exists d, to_datetime now x = Some d /\ k = Some (isoformat d)
  end.

(** ** Sequences of requests *)






(** ** A stand-in for pandas and a small frame, to run the handler *)

Module Sample.

Definition is_digit (c : ascii) : bool :=
  let n := nat_of_ascii c in ((48 <=? n)%nat && (n <=? 57)%nat).

(** The number written by the leading digits of [s], and the rest of [s]. *)
Fixpoint take_digits (s : string) (acc : Z) : Z * string :=
  match s with
  | EmptyString => (acc, EmptyString)
  | String c s' =>
      if is_digit c
      then take_digits s' (10 * acc + Z.of_nat (nat_of_ascii c - 48))%Z
      else (acc, s)
  end.

Definition starts_with_digit (s : string) : bool :=
  match s with
  | EmptyString => false
  | String c _ => is_digit c
  end.

(** Dates are written as a count of nanoseconds in decimal, white space
    around it is ignored.  The count alone is a date without time zone;
    followed by "Z" it is a date in UTC; followed by "+" and an offset it
    is the local time at that offset from UTC.  The blank string is [NaT],
    "now" is what the clock shows, anything else raises. *)
Definition parse_ns (now : Z) (s : string) : option Datetime :=
  let t := PyStr.strip s in
  if String.eqb t "" then Some (Naive NaT)
  else if String.eqb t "now" then Some (Naive (Instant now))
  else if starts_with_digit t then
    let '(n, rest) := take_digits t 0 in
    match rest with
    | EmptyString => Some (Naive (Instant n))
    | String "Z" EmptyString => Some (Aware n 0)
    | String "+" r =>
        if starts_with_digit r then
          let '(off, rest') := take_digits r 0 in
          match rest' with
          | EmptyString => Some (Aware (n - off) off)
          | _ => None
          end
        else None
    | _ => None
    end
  else None.

(** The local time, then the offset from UTC if the date has one. *)
Definition format_ns (t : Datetime) : string :=
  match t with
  | Naive NaT => "NaT"
  | Naive (Instant n) => String "T" (pretty n)
  | Aware u off => String "T" (pretty (u + off)%Z +:+ String "+" (pretty off))
  end.

(** No "+" occurs in [s]. *)
Fixpoint plus_free (s : string) : Prop :=
  match s with
  | EmptyString => True
  | String c s' => c <> "+"%char /\ plus_free s'
  end.

Definition to_float (v : Number) : float :=
  match v with
  | Int64 n =>
      if (n <? 0)%Z then (- of_uint63 (Uint63.of_Z (- n)))%float
      else of_uint63 (Uint63.of_Z n)
  | Float64 x => x
  end.

(** The sum from left to right over the number of cells. *)
Definition mean (l : list Number) : float :=
  (fold_left (fun acc v => acc + to_float v) l 0
   / of_uint63 (Uint63.of_Z (Z.of_nat (length l))))%float.

Definition least (l : list Number) : float :=
  match l with
  | [] => nan
  | v :: l' =>
      fold_left (fun m w => if (to_float w <? m)%float then to_float w else m)
        l' (to_float v)
  end.

Definition greatest (l : list Number) : float :=
  match l with
  | [] => nan
  | v :: l' =>
      fold_left (fun m w => if (m <? to_float w)%float then to_float w else m)
        l' (to_float v)
  end.

Definition pandas : Pandas :=
  Build_Pandas parse_ns format_ns mean least greatest.

Definition frame : DataFrame :=
  [ mkReading 10 "lab" "temp" (Float64 1);
    mkReading 20 "lab" "temp" (Float64 3);
    mkReading 30 "lab" "temp" (Float64 5);
    mkReading 30 "roof" "hum" (Int64 7);
    mkReading 40 "" "temp" (Float64 2.5) ].

Definition not_loaded : State := mkState None ∅.
Definition loaded : State := mkState (Some frame) ∅.

(** A reading of the clock, and a later one. *)
Definition noon : Clock := mkClock 1000 1000.
Definition later : Clock := mkClock 2000 2001.

End Sample.

(** ** Properties of the string helpers *)

Module PyStrFacts.
Import PyStr.

Lemma isspace_lower_char c : isspace (lower_char c) = isspace c.
Proof.
  destruct c as [[] [] [] [] [] [] [] []]; reflexivity.
Qed.

Lemma lower_app s t : lower (s +:+ t) = lower s +:+ lower t.
Proof.
  induction s as [|c s IH]; simpl; [reflexivity | now rewrite IH].
Qed.

Lemma lower_lstrip s : lower (lstrip s) = lstrip (lower s).
Proof.
  induction s as [|c s IH]; simpl; [reflexivity |].
  rewrite isspace_lower_char.
  destruct (isspace c); [exact IH | reflexivity].
Qed.

Lemma lower_rstrip s : lower (rstrip s) = rstrip (lower s).
Proof.
  induction s as [|c s IH]; simpl; [reflexivity |].
  rewrite <- IH, isspace_lower_char.
  destruct (rstrip s) as [|c' r]; simpl; [| reflexivity].
  destruct (isspace c); reflexivity.
Qed.

Lemma lower_strip s : lower (strip s) = strip (lower s).
Proof.
  unfold strip. now rewrite lower_rstrip, lower_lstrip.
Qed.

Lemma lstrip_blank s : blank s = true -> lstrip s = "".
Proof.
  induction s as [|c s IH]; simpl; [reflexivity |].
  intros H. apply andb_true_iff in H as [Hc Hs].
  rewrite Hc. auto.
Qed.

Lemma rstrip_blank s : blank s = true -> rstrip s = "".
Proof.
  induction s as [|c s IH]; simpl; [reflexivity |].
  intros H. apply andb_true_iff in H as [Hc Hs].
  rewrite (IH Hs), Hc. reflexivity.
Qed.

Lemma strip_blank s : blank s = true -> strip s = "".
Proof.
  intros H. unfold strip. now rewrite (lstrip_blank _ H).
Qed.

Lemma lstrip_blank_app a s : blank a = true -> lstrip (a +:+ s) = lstrip s.
Proof.
  induction a as [|c a IH]; simpl; [reflexivity |].
  intros H. apply andb_true_iff in H as [Hc Ha].
  rewrite Hc. auto.
Qed.

Lemma rstrip_app_blank s b : blank b = true -> rstrip (s +:+ b) = rstrip s.
Proof.
  intros Hb. induction s as [|c s IH]; simpl.
  - now apply rstrip_blank.
  - now rewrite IH.
Qed.

Lemma strip_app_blank s b : blank b = true -> strip (s +:+ b) = strip s.
Proof.
  intros Hb. unfold strip. induction s as [|c s IH].
  - change ("" +:+ b) with b. now rewrite (lstrip_blank _ Hb).
  - change (String c s +:+ b) with (String c (s +:+ b)). cbn [lstrip].
    destruct (isspace c); [exact IH |].
    now apply (rstrip_app_blank (String c s)).
Qed.

Lemma strip_padding a s b :
  blank a = true -> blank b = true -> strip (a +:+ s +:+ b) = strip s.
Proof.
  intros Ha Hb. unfold strip at 1. rewrite (lstrip_blank_app _ _ Ha).
  now apply strip_app_blank.
Qed.

End PyStrFacts.


Module PyStrCanon.
Import PyStr.

Lemma lower_char_idem c : lower_char (lower_char c) = lower_char c.
Proof.
  destruct c as [[] [] [] [] [] [] [] []]; reflexivity.
Qed.

Lemma lower_idem s : lower (lower s) = lower s.
Proof.
  induction s as [|c s IH]; simpl; [reflexivity |].
  now rewrite lower_char_idem, IH.
Qed.

Lemma rstrip_idem s : rstrip (rstrip s) = rstrip s.
Proof.
  induction s as [|c s IH]; [reflexivity |].
  cbn [rstrip]. destruct (rstrip s) as [|c' r] eqn:Hr.
  - destruct (isspace c) eqn:Hc; [reflexivity |].
    cbn [rstrip]. now rewrite Hc.
  - cbn [rstrip] in *. now rewrite IH.
Qed.

Lemma lstrip_head s :
  lstrip s = "" \/ exists c t, lstrip s = String c t /\ isspace c = false.
Proof.
  induction s as [|c s IH]; [now left |].
  cbn [lstrip]. destruct (isspace c) eqn:Hc; [exact IH |].
  right. eauto.
Qed.

Lemma rstrip_keeps_head c t :
  isspace c = false -> exists t', rstrip (String c t) = String c t'.
Proof.
  intros Hc. cbn [rstrip]. destruct (rstrip t); [rewrite Hc |]; eauto.
Qed.

Lemma lstrip_strip s : lstrip (strip s) = strip s.
Proof.
  unfold strip. destruct (lstrip_head s) as [-> | (c & t & -> & Hc)].
  - reflexivity.
  - destruct (rstrip_keeps_head c t Hc) as [t' ->].
    cbn [lstrip]. now rewrite Hc.
Qed.

Lemma strip_idem s : strip (strip s) = strip s.
Proof.
  unfold strip at 1. rewrite lstrip_strip. unfold strip. apply rstrip_idem.
Qed.

End PyStrCanon.

Lemma norm_field_idem o : norm_field (norm_field o) = norm_field o.
Proof.
  destruct o as [s|]; [| reflexivity]. simpl. f_equal.
  rewrite <- (PyStrFacts.lower_strip (PyStr.strip s)).
  now rewrite PyStrCanon.lower_idem, PyStrCanon.strip_idem.
Qed.

(** ** The string helpers and the wording of the specification *)

Module SpecFacts.
Import PyStr.

Lemma isspace_white c : isspace c = true <-> Spec.white c.
Proof.
  unfold isspace, Spec.white. cbn [In].
  rewrite orb_true_iff, !andb_true_iff, !Nat.leb_le. lia.
Qed.

Lemma isspace_not_white c : isspace c = false <-> ~ Spec.white c.
Proof.
  rewrite <- isspace_white. destruct (isspace c); split; congruence.
Qed.

Lemma blank_all_white s : blank s = true <-> Spec.all_white s.
Proof.
  induction s as [|c s IH]; simpl; [tauto |].
  now rewrite andb_true_iff, isspace_white, IH.
Qed.

Lemma lower_of_char c d : Spec.lower_of c d <-> d = lower_char c.
Proof.
  unfold Spec.lower_of, Spec.upper, lower_char.
  pose proof (nat_ascii_bounded c) as Hb.
  destruct ((65 <=? nat_of_ascii c)%nat && (nat_of_ascii c <=? 90)%nat)
    eqn:Hu.
  - apply andb_true_iff in Hu as [H1 H2].
    apply Nat.leb_le in H1, H2. split.
    + intros [[_ Hd] | [Hn _]]; [| lia].
      rewrite <- Hd. symmetry. apply ascii_nat_embedding.
    + intros ->. left. split; [lia |].
      apply nat_ascii_embedding. lia.
  - apply andb_false_iff in Hu. rewrite !Nat.leb_nle in Hu. split.
    + intros [[Hup _] | [_ Hd]]; [lia | exact Hd].
    + intros ->. right. split; [lia | reflexivity].
Qed.

Lemma lowercased_lower s t : Spec.lowercased s t <-> t = lower s.
Proof.
  split.
  - induction 1 as [| c d s t Hc _ IH]; [reflexivity |].
    apply lower_of_char in Hc. simpl. congruence.
  - intros ->. induction s as [|c s IH]; simpl; constructor;
      [now apply lower_of_char | exact IH].
Qed.

Lemma lstrip_decomp s : exists a, s = a +:+ lstrip s /\ blank a = true.
Proof.
  induction s as [|c s (a & Hs & Ha)]; [now exists "" |].
  cbn [lstrip]. destruct (isspace c) eqn:Hc.
  - exists (String c a). split.
    + change (String c a +:+ lstrip s) with (String c (a +:+ lstrip s)).
      now rewrite <- Hs.
    + simpl. now rewrite Hc, Ha.
  - now exists "".
Qed.

Lemma rstrip_decomp s : exists b, s = rstrip s +:+ b /\ blank b = true.
Proof.
  induction s as [|c s (b & Hs & Hb)]; [now exists "" |].
  cbn [rstrip]. destruct (rstrip s) as [|c' r] eqn:Hr.
  - change ("" +:+ b) with b in Hs. subst b.
    destruct (isspace c) eqn:Hc.
    + exists (String c s). split; [reflexivity |]. simpl. now rewrite Hc, Hb.
    + exists s. split; [reflexivity | exact Hb].
  - exists b. split; [| exact Hb].
    change (String c (String c' r) +:+ b)
      with (String c (String c' r +:+ b)).
    now rewrite <- Hs.
Qed.

Lemma rstrip_last s r c : rstrip s = r +:+ String c "" -> isspace c = false.
Proof.
  revert r. induction s as [|a s IH]; intros r.
  - destruct r; discriminate.
  - cbn [rstrip]. destruct (rstrip s) as [|c' r'] eqn:Hr.
    + destruct (isspace a) eqn:Ha.
      * destruct r; discriminate.
      * destruct r as [|x r]; [now intros [= <-] |].
        intros [= _ H]. destruct r; discriminate.
    + destruct r as [|x r]; [discriminate |].
      intros [= _ H]. now apply (IH r).
Qed.

Lemma strip_tight s : Spec.tight (strip s).
Proof.
  split.
  - intros c r Hs. apply isspace_not_white. unfold strip in Hs.
    destruct (PyStrCanon.lstrip_head s) as [H0 | (c0 & t0 & H0 & Hc0)];
      rewrite H0 in Hs; [discriminate |].
    destruct (PyStrCanon.rstrip_keeps_head c0 t0 Hc0) as [t' Ht'].
    rewrite Ht' in Hs. now injection Hs as <- _.
  - intros r c Hs. apply isspace_not_white.
    exact (rstrip_last (lstrip s) r c Hs).
Qed.

Lemma strip_of_tight t : Spec.tight t -> strip t = t.
Proof.
  intros [Hhead Hlast]. unfold strip.
  assert (Hl : lstrip t = t).
  { destruct t as [|c r]; [reflexivity |]. cbn [lstrip].
    specialize (Hhead c r eq_refl). apply isspace_not_white in Hhead.
    now rewrite Hhead. }
  rewrite Hl. clear Hhead Hl.
  induction t as [|a t IH]; [reflexivity |].
  cbn [rstrip]. rewrite IH.
  - destruct t as [|c' t']; [| reflexivity].
    specialize (Hlast "" a eq_refl). apply isspace_not_white in Hlast.
    now rewrite Hlast.
  - intros r c ->. apply (Hlast (String a r) c). reflexivity.
Qed.

Lemma trimmed_strip s t : Spec.trimmed s t <-> t = strip s.
Proof.
  split.
  - intros (a & b & -> & Ha & Hb & Ht).
    apply blank_all_white in Ha, Hb.
    rewrite (PyStrFacts.strip_padding _ _ _ Ha Hb).
    symmetry. now apply strip_of_tight.
  - intros ->. unfold strip at 1.
    destruct (lstrip_decomp s) as (a & Hs & Ha).
    destruct (rstrip_decomp (lstrip s)) as (b & Hl & Hb).
    exists a, b. split; [| split; [| split]].
    + rewrite Hs at 1. now rewrite Hl at 1.
    + now apply blank_all_white.
    + now apply blank_all_white.
    + apply strip_tight.
Qed.

Lemma canonical_norm s t : Spec.canonical s t <-> t = lower (strip s).
Proof.
  unfold Spec.canonical. split.
  - intros (u & Hu & Ht). apply trimmed_strip in Hu.
    apply lowercased_lower in Ht. congruence.
  - intros ->. exists (strip s). split;
      [now apply trimmed_strip | now apply lowercased_lower].
Qed.

Lemma same_letter_lower c d :
  Spec.same_letter c d -> lower_char c = lower_char d.
Proof.
  assert (Hup : forall x y,
             Spec.upper x -> nat_of_ascii y = (nat_of_ascii x + 32)%nat ->
             lower_char x = lower_char y).
  { intros x y Hx Hy.
    assert (Hlx : lower_char x = y).
    { symmetry. apply (proj1 (lower_of_char x y)). left. now split. }
    rewrite Hlx. apply (proj1 (lower_of_char y y)).
    right. split; [| reflexivity]. unfold Spec.upper in *. lia. }
  intros [-> | [[Hc Hd] | [Hd Hc]]]; [reflexivity | now apply Hup |].
  symmetry. now apply Hup.
Qed.

Lemma same_up_to_case_lower s t : Spec.same_up_to_case s t -> lower s = lower t.
Proof.
  induction 1 as [| c d s t Hc _ IH]; [reflexivity |].
  simpl. now rewrite (same_letter_lower _ _ Hc), IH.
Qed.

Lemma padding_and_case_norm s1 s2 :
  Spec.differ_in_padding_and_case_only s1 s2 ->
  lower (strip s1) = lower (strip s2).
Proof.
  intros (a1 & t1 & b1 & a2 & t2 & b2 & -> & -> & Ha1 & Hb1 & Ha2 & Hb2 & Ht).
  apply blank_all_white in Ha1, Hb1, Ha2, Hb2.
  rewrite !PyStrFacts.strip_padding by assumption.
  rewrite !PyStrFacts.lower_strip. now rewrite (same_up_to_case_lower _ _ Ht).
Qed.

Lemma same_filter_norm o1 o2 :
  Spec.same_filter o1 o2 <-> norm_field o1 = norm_field o2.
Proof.
  destruct o1 as [x|], o2 as [y|]; simpl; try (split; [tauto | discriminate]);
    [| tauto].
  split.
  - intros (t & Hx & Hy). apply canonical_norm in Hx, Hy. congruence.
  - intros [= H]. exists (lower (strip x)).
    split; apply canonical_norm; congruence.
Qed.

End SpecFacts.

(** ** Properties of the selection *)

Lemma filter_twice {A} (f g : A -> bool) (l : list A) :
  List.filter g (List.filter f l) = List.filter (fun x => f x && g x) l.
Proof.
  induction l as [|x l IH]; simpl; [reflexivity |].
  destruct (f x); simpl; [destruct (g x) |]; now rewrite IH.
Qed.

Lemma filter_optional {A B} (o : option B) (p : B -> A -> bool) (l : list A) :
  match o with
  | Some b => List.filter (p b) l
  | None => l
  end
  = List.filter (fun x => match o with None => true | Some b => p b x end) l.
Proof.
  destruct o as [b|]; [reflexivity |].
  induction l as [|x l IH]; simpl; [reflexivity | now rewrite <- IH].
Qed.

Lemma select_matches data location sensor sd ed :
  select data location sensor sd ed
  = List.filter (matches location sensor sd ed) data.
Proof.
  unfold select, where_eq, matches.
  rewrite (filter_optional location
             (fun l r =>
                String.eqb (col_location r) (PyStr.lower (PyStr.strip l)))).
  rewrite (filter_optional sensor
             (fun s r =>
                String.eqb (col_sensor r) (PyStr.lower (PyStr.strip s)))).
  rewrite (filter_optional sd (fun t r => ts_ge (col_timestamp r) t)).
  rewrite (filter_optional ed (fun t r => ts_le (col_timestamp r) t)).
  rewrite !filter_twice. apply List.filter_ext. intros r.
  now rewrite !andb_assoc.
Qed.

Lemma select_norm data l1 l2 s1 s2 sd ed :
  norm_field l1 = norm_field l2 -> norm_field s1 = norm_field s2 ->
  select data l1 s1 sd ed = select data l2 s2 sd ed.
Proof.
  intros Hl Hs. rewrite !select_matches. apply List.filter_ext. intros r.
  unfold matches.
  destruct l1, l2; simpl in Hl; try discriminate;
    destruct s1, s2; simpl in Hs; try discriminate;
    repeat match goal with H : Some _ = Some _ |- _ => injection H as -> end;
    reflexivity.
Qed.





Lemma filter_is_sublist {A} (f : A -> bool) (l : list A) :
  List.filter f l `sublist_of` l.
Proof.
  induction l as [|x l IH]; simpl; [constructor |].
  destruct (f x); now constructor.
Qed.

Lemma filter_implies_sublist {A} (p q : A -> bool) (l : list A) :
  (forall x, p x = true -> q x = true) ->
  List.filter p l `sublist_of` List.filter q l.
Proof.
  intros H. induction l as [|x l IH]; simpl; [constructor |].
  destruct (p x) eqn:Hp.
  - rewrite (H x Hp). now constructor.
  - destruct (q x); [now constructor | exact IH].
Qed.

Lemma filter_permutation {A} (f : A -> bool) l l' :
  Permutation l l' -> Permutation (List.filter f l) (List.filter f l').
Proof.
  induction 1 as [| x l l' _ IH | x y l | l l' l'' _ IH1 _ IH2]; simpl.
  - constructor.
  - destruct (f x); [now constructor | exact IH].
  - destruct (f x), (f y); try reflexivity. constructor.
  - etransitivity; eassumption.
Qed.

Lemma length_filter_balance {A} (p1 p2 p3 p4 : A -> bool) (l : list A) :
  (forall x, Nat.b2n (p1 x) + Nat.b2n (p2 x)
             = Nat.b2n (p3 x) + Nat.b2n (p4 x))%nat ->
  (length (List.filter p1 l) + length (List.filter p2 l)
   = length (List.filter p3 l) + length (List.filter p4 l))%nat.
Proof.
  intros H. induction l as [|x l IH]; simpl; [reflexivity |].
  specialize (H x).
  destruct (p1 x), (p2 x), (p3 x), (p4 x); simpl in *; lia.
Qed.

Lemma operand_naive d t : operand d = Some t <->
  match d with
  | None => t = None
  | Some (Naive u) => t = Some u
  | Some (Aware _ _) => False
  end.
Proof.
  destruct d as [[u | u off]|]; simpl; split; try congruence; try tauto.
Qed.

Lemma filter_rows_some data location sensor sd ed sd' ed' :
  operand sd = Some sd' -> operand ed = Some ed' ->
  filter_rows data location sensor sd ed
  = Some (select data location sensor sd' ed').
Proof.
  intros Hs He. unfold filter_rows. now rewrite Hs, He.
Qed.

Lemma filter_rows_inv data location sensor sd ed df :
  filter_rows data location sensor sd ed = Some df ->
  exists sd' ed',
    operand sd = Some sd' /\ operand ed = Some ed' /\
    df = select data location sensor sd' ed'.
Proof.
  unfold filter_rows.
  destruct (operand sd) as [sd'|]; [| discriminate].
  destruct (operand ed) as [ed'|]; [| discriminate].
  intros [= <-]. eauto.
Qed.

Lemma filter_rows_none data location sensor sd ed :
  filter_rows data location sensor sd ed = None <->
  operand sd = None \/ operand ed = None.
Proof.
  unfold filter_rows.
  destruct (operand sd) as [sd'|]; [| tauto].
  destruct (operand ed) as [ed'|]; [| tauto].
  split; [discriminate | intros [H | H]; discriminate].
Qed.

(** ** Properties of the aggregation *)

Section AggregationFacts.

Context {pd : Pandas}.

Lemma compute_stats_empty df :
  length df = 0%nat -> _compute_stats_from_df df = mkAggregate 0 None None None.
Proof.
  intros H. unfold _compute_stats_from_df. now rewrite H.
Qed.


Lemma compute_stats_count df :
  stat_count (_compute_stats_from_df df) = length df.
Proof.
  unfold _compute_stats_from_df.
  destruct (Nat.eqb_spec (length df) 0) as [-> |]; reflexivity.
Qed.

End AggregationFacts.

(** ** Properties of the handler *)

Section ServiceFacts.

Context {pd : Pandas}.

Lemma request_key_norm l s sd ed :
  request_key l s sd ed
  = (norm_field l, norm_field s,
     match sd with Some t => Some (isoformat t) | None => None end,
     match ed with Some t => Some (isoformat t) | None => None end).
Proof.
  unfold request_key, _make_cache_key, norm_field.
  destruct sd, ed; reflexivity.
Qed.


Lemma stats_invalid clock l s a b st data e :
  _df st = Some data -> parse_dates clock a b = inl e ->
  stats clock l s a b st = (inl (mkHTTPException 400 e), st).
Proof.
  intros Hd Hp. unfold stats. now rewrite Hd, Hp.
Qed.

Lemma stats_hit clock l s a b st data sd ed v :
  _df st = Some data -> parse_dates clock a b = inr (sd, ed) ->
  _cache st !! request_key l s sd ed = Some v ->
  stats clock l s a b st = (inr (mkResponse HIT v), st).
Proof.
  intros Hd Hp Hc. unfold stats. now rewrite Hd, Hp, Hc.
Qed.


Lemma stats_miss clock l s a b st data sd ed df :
  _df st = Some data -> parse_dates clock a b = inr (sd, ed) ->
  _cache st !! request_key l s sd ed = None ->
  filter_rows data l s sd ed = Some df ->
  stats clock l s a b st
  = (inr (mkResponse MISS (_compute_stats_from_df df)),
     mkState (Some data)
       (<[request_key l s sd ed := _compute_stats_from_df df]> (_cache st))).
Proof.
  intros Hd Hp Hc Hf. unfold stats. now rewrite Hd, Hp, Hc, Hf.
Qed.

Lemma stats_keeps_df clock l s a b st :
  _df (snd (stats clock l s a b st)) = _df st.
Proof.
  unfold stats. destruct (_df st) as [data|] eqn:Hd; [| exact Hd].
  destruct (parse_dates clock a b) as [e | [sd ed]]; [exact Hd |].
  destruct (_cache st !! request_key l s sd ed); [exact Hd |].
  destruct (filter_rows data l s sd ed); [reflexivity | exact Hd].
Qed.

Lemma stats_cache_grows clock l s a b st k v :
  _cache st !! k = Some v ->
  _cache (snd (stats clock l s a b st)) !! k = Some v.
Proof.
  intros Hk. unfold stats. destruct (_df st) as [data|]; [| exact Hk].
  destruct (parse_dates clock a b) as [e | [sd ed]]; [exact Hk |].
  destruct (_cache st !! request_key l s sd ed) eqn:Hc; [exact Hk |].
  destruct (filter_rows data l s sd ed); [| exact Hk].
  simpl. rewrite lookup_insert_ne; [exact Hk |].
  intros Heq. rewrite Heq in Hc. congruence.
Qed.

Lemma parse_dates_inl clock a b e :
  parse_dates clock a b = inl e ->
  exists raw, offending clock a b raw /\ e = "Invalid date format: " +:+ raw.
Proof.
  unfold parse_dates, _parse_date, offending. intros H.
  destruct a as [ra|].
  - destruct (to_datetime (clock_start clock) ra) eqn:Ha.
    + destruct b as [rb|]; [| discriminate].
      destruct (to_datetime (clock_end clock) rb) eqn:Hb; [discriminate |].
      injection H as <-. exists rb. auto.
    + injection H as <-. exists ra. auto.
  - destruct b as [rb|]; [| discriminate].
    destruct (to_datetime (clock_end clock) rb) eqn:Hb; [discriminate |].
    injection H as <-. exists rb. auto.
Qed.

Lemma parse_dates_offending clock a b raw :
  offending clock a b raw -> exists e, parse_dates clock a b = inl e.
Proof.
  unfold parse_dates, _parse_date, offending.
  intros [[-> Hraw] | [-> Hraw]].
  - rewrite Hraw. eauto.
  - destruct a as [ra|]; [destruct (to_datetime _ ra) |];
      rewrite ?Hraw; eauto.
Qed.

Lemma parse_dates_ok_iff clock a b :
  (exists sd ed, parse_dates clock a b = inr (sd, ed)) <->
  (forall raw, ~ offending clock a b raw).
Proof.
  split.
  - intros (sd & ed & Hp) raw Hoff.
    destruct (parse_dates_offending _ _ _ _ Hoff) as [e He]. congruence.
  - intros Hok.
    destruct (parse_dates clock a b) as [e | [sd ed]] eqn:Hp; [| eauto].
    destruct (parse_dates_inl _ _ _ _ Hp) as (raw & Hraw & _).
    now destruct (Hok raw).
Qed.

Lemma _parse_date_inr now o d :
  _parse_date now o = inr d <->
  match o with
  | None => d = None
  | Some x => exists t, to_datetime now x = Some t /\ d = Some t
  end.
Proof.
  unfold _parse_date. destruct o as [x|].
  - destruct (to_datetime now x) as [t|]; split.
    + intros [= <-]. eauto.
    + intros (t' & [= <-] & ->). reflexivity.
    + discriminate.
    + intros (t' & H & _). discriminate.
  - split; [now intros [= <-] | now intros ->].
Qed.

Lemma parse_dates_inr clock a b sd ed :
  parse_dates clock a b = inr (sd, ed) <->
  _parse_date (clock_start clock) a = inr sd /\
  _parse_date (clock_end clock) b = inr ed.
Proof.
  unfold parse_dates.
  destruct (_parse_date (clock_start clock) a) as [e | sd0];
    [split; [discriminate | intros [H _]; discriminate] |].
  destruct (_parse_date (clock_end clock) b) as [e | ed0];
    [split; [discriminate | intros [_ H]; discriminate] |].
  split; [intros [= <- <-]; auto | intros [[= <-] [= <-]]; reflexivity].
Qed.

Lemma reachable_df data st : reachable data st -> _df st = Some data.
Proof.
  induction 1 as [| st clock l s a b _ IH]; [reflexivity |].
  now rewrite stats_keeps_df.
Qed.

Hypothesis isoformat_inj : isoformat_injective.

Lemma request_key_inj l s sd ed l' s' sd' ed' :
  request_key l s sd ed = request_key l' s' sd' ed' ->
  norm_field l = norm_field l' /\ norm_field s = norm_field s' /\
  sd = sd' /\ ed = ed'.
Proof.
  rewrite !request_key_norm. intros H. injection H as Hl Hs Hsd Hed.
  repeat split; try assumption.
  - destruct sd, sd'; try discriminate; [| reflexivity].
    injection Hsd as Hsd. f_equal. now apply isoformat_inj.
  - destruct ed, ed'; try discriminate; [| reflexivity].
    injection Hed as Hed. f_equal. now apply isoformat_inj.
Qed.

Lemma filter_rows_key data l s sd ed l' s' sd' ed' :
  request_key l s sd ed = request_key l' s' sd' ed' ->
  filter_rows data l s sd ed = filter_rows data l' s' sd' ed'.
Proof.
  intros H. apply request_key_inj in H as (Hl & Hs & -> & ->).
  unfold filter_rows. destruct (operand sd'), (operand ed'); try reflexivity.
  f_equal. now apply select_norm.
Qed.

Lemma coherent_loaded data : coherent data (mkState (Some data) ∅).
Proof.
  split; [reflexivity |]. intros l s sd ed v H. simpl in H.
  rewrite lookup_empty in H. discriminate.
Qed.

Lemma coherent_stats data st clock l s a b :
  coherent data st -> coherent data (snd (stats clock l s a b st)).
Proof.
  intros [Hd Hc]. split; [now rewrite stats_keeps_df |].
  intros l' s' sd' ed' v. unfold stats. rewrite Hd.
  destruct (parse_dates clock a b) as [e | [sd ed]]; [apply Hc |].
  destruct (_cache st !! request_key l s sd ed) eqn:Hk; [apply Hc |].
  destruct (filter_rows data l s sd ed) as [df|] eqn:Hf; [| apply Hc].
  simpl. destruct (decide (request_key l s sd ed = request_key l' s' sd' ed'))
    as [Heq | Hne].
  - rewrite <- Heq, lookup_insert_eq. intros [= <-].
    exists df. split; [| reflexivity].
    now rewrite <- (filter_rows_key data _ _ _ _ _ _ _ _ Heq).
  - rewrite lookup_insert_ne by exact Hne. apply Hc.
Qed.

Lemma reachable_coherent data st : reachable data st -> coherent data st.
Proof.
  induction 1; [apply coherent_loaded | now apply coherent_stats].
Qed.

Lemma stats_reachable data st clock l s a b sd ed sd' ed' :
  reachable data st -> parse_dates clock a b = inr (sd, ed) ->
  operand sd = Some sd' -> operand ed = Some ed' ->
  exists flag st',
    stats clock l s a b st
    = (inr (mkResponse flag (_compute_stats_from_df (select data l s sd' ed'))),
       st').
Proof.
  intros Hr Hp Hs He. destruct (reachable_coherent _ _ Hr) as [Hd Hc].
  pose proof (filter_rows_some data l s _ _ _ _ Hs He) as Hf.
  destruct (_cache st !! request_key l s sd ed) as [v|] eqn:Hk.
  - rewrite (stats_hit _ _ _ _ _ _ _ _ _ _ Hd Hp Hk).
    destruct (Hc _ _ _ _ _ Hk) as (df & Hdf & ->).
    rewrite Hf in Hdf. injection Hdf as <-. eauto.
  - rewrite (stats_miss _ _ _ _ _ _ _ _ _ _ Hd Hp Hk Hf). eauto.
Qed.

Lemma stats_reachable_inv data st clock l s a b sd ed response st' :
  reachable data st -> parse_dates clock a b = inr (sd, ed) ->
  stats clock l s a b st = (inr response, st') ->
  exists sd' ed',
    operand sd = Some sd' /\ operand ed = Some ed' /\
    body response = _compute_stats_from_df (select data l s sd' ed').
Proof.
  intros Hr Hp. destruct (reachable_coherent _ _ Hr) as [Hd Hc].
  unfold stats. rewrite Hd, Hp.
  destruct (_cache st !! request_key l s sd ed) as [v|] eqn:Hk.
  - intros [= <- _]. destruct (Hc _ _ _ _ _ Hk) as (df & Hdf & ->).
    apply filter_rows_inv in Hdf as (sd' & ed' & Hs & He & ->).
    exists sd', ed'. auto.
  - destruct (filter_rows data l s sd ed) as [df|] eqn:Hf; [| discriminate].
    intros [= <- _].
    apply filter_rows_inv in Hf as (sd' & ed' & Hs & He & ->).
    exists sd', ed'. auto.
Qed.

End ServiceFacts.

(** ** The stand-in meets what is assumed of pandas *)

Module SampleFacts.
Import Sample.

Lemma pretty_N_go_plus_free (x : N) s :
  plus_free s -> plus_free (pretty_N_go x s).
Proof.
  revert s. induction (N.lt_wf_0 x) as [x _ IH]. intros s Hs.
  assert (x = 0 \/ 0 < x)%N as [-> | Hx] by lia.
  - now rewrite pretty_N_go_0.
  - rewrite pretty_N_go_step by exact Hx. apply IH.
    + now apply N.div_lt.
    + split; [| exact Hs]. unfold pretty_N_char.
      repeat case_match; discriminate.
Qed.

Lemma pretty_Z_plus_free (z : Z) : plus_free (pretty z).
Proof.
  assert (HN : forall n : N, plus_free (pretty n)).
  { intros n. unfold pretty, pretty_N. case_decide.
    - simpl. split; [discriminate | exact I].
    - now apply pretty_N_go_plus_free. }
  destruct z as [|p|p]; unfold pretty, pretty_Z.
  - simpl. split; [discriminate | exact I].
  - apply HN.
  - change ("-" +:+ pretty p) with (String "-" (pretty p)).
    split; [discriminate | apply HN].
Qed.

Lemma split_at_plus a b a' b' :
  plus_free a -> plus_free a' ->
  a +:+ String "+" b = a' +:+ String "+" b' -> a = a' /\ b = b'.
Proof.
  revert a'. induction a as [|c a IH]; intros [|c' a'] Ha Ha' H.
  - now injection H as <-.
  - injection H as <- _. now destruct Ha' as [[] _].
  - injection H as -> _. now destruct Ha as [[] _].
  - injection H as <- H. destruct Ha as [_ Ha], Ha' as [_ Ha'].
    destruct (IH a' Ha Ha' H) as [<- <-]. auto.
Qed.

Lemma plus_free_no_plus a b c : plus_free c -> c <> a +:+ String "+" b.
Proof.
  revert c. induction a as [|x a IH]; intros [|y c] Hc H; try discriminate.
  - injection H as -> _. now destruct Hc as [[] _].
  - injection H as _ H. destruct Hc as [_ Hc]. now apply (IH c).
Qed.

Lemma sample_isoformat_injective : @isoformat_injective Sample.pandas.
Proof.
  intros [[|n] | u off] [[|m] | u' off']; simpl; intros H;
    try reflexivity; try discriminate.
  - injection H as H. do 2 f_equal. now apply (inj pretty).
  - injection H as H. exfalso.
    exact (plus_free_no_plus _ _ _ (pretty_Z_plus_free n) H).
  - injection H as H. exfalso. symmetry in H.
    exact (plus_free_no_plus _ _ _ (pretty_Z_plus_free m) H).
  - injection H as H.
    apply split_at_plus in H as [H1 H2]; try apply pretty_Z_plus_free.
    apply (inj pretty) in H1, H2. subst off'. f_equal. lia.
Qed.

End SampleFacts.

(** ** The handler on the sample frame *)

Example select_bounds_inclusive :
  List.map col_timestamp
    (select Sample.frame (Some "lab") None
       (Some (Instant 10)) (Some (Instant 30)))
  = [10; 20; 30]%Z.
Proof. reflexivity. Qed.

Example select_NaT_keeps_nothing :
  select Sample.frame None None (Some NaT) None = [].
Proof. reflexivity. Qed.

Example normalize_sample :
  @normalize Sample.pandas Sample.noon (Some " LAB") None (Some "007") None
  = inr (Some "lab", None, Some "T7", None).
Proof. reflexivity. Qed.

Example normalize_now_sample :
  @normalize Sample.pandas Sample.later None None (Some "now") (Some "now")
  = inr (None, None, Some "T2000", Some "T2001").
Proof. reflexivity. Qed.

Example stats_miss_then_hit :
  let first :=
    @stats Sample.pandas Sample.noon (Some " LAB") None (Some "10") (Some "20")
      Sample.loaded in
  let second :=
    @stats Sample.pandas Sample.later (Some "lab ") None (Some "010")
      (Some " 20") (snd first) in
  let agg := mkAggregate 2 (Some 2%float) (Some 1%float) (Some 3%float) in
  fst first = inr (mkResponse MISS agg) /\
  fst second = inr (mkResponse HIT agg).
Proof. vm_compute. split; reflexivity. Qed.

Example stats_aware_date_sample :
  @stats Sample.pandas Sample.noon None None (Some "10Z") None Sample.loaded
  = (inl TypeError, Sample.loaded).
Proof. reflexivity. Qed.

(** ** The claims *)




(** C2. A request that matches no row is answered with [count = 0] and
    [avg], [min] and [max] all absent ([None], in particular neither zero
    nor a filler number); conversely the three are present whenever
    [count > 0].  This holds of the aggregation of every frame and of
    every answer of /stats in a state the service can reach; and there is
    an answer whenever the dates carry no time zone. *)
Theorem empty_result_has_no_statistics {pd : Pandas}
    (clock : Clock) (data : DataFrame) (st : State)
    (location sensor start_date end_date : option string)
    (sd ed : option Datetime) :
  isoformat_injective ->
  reachable data st ->
  parse_dates clock start_date end_date = inr (sd, ed) ->
  (forall df,
     let a := _compute_stats_from_df df in
     (df = [] -> a = mkAggregate 0 None None None) /\
     (stat_count a = 0%nat ->
        stat_avg a = None /\ stat_min a = None /\ stat_max a = None) /\
     ((0 < stat_count a)%nat ->
        is_Some (stat_avg a) /\ is_Some (stat_min a) /\ is_Some (stat_max a)))
  /\
  (forall flag agg,
     fst (stats clock location sensor start_date end_date st)
     = inr (mkResponse flag agg) ->
     (forall start finish,
        operand sd = Some start -> operand ed = Some finish ->
        List.filter (matches location sensor start finish) data = [] ->
        agg = mkAggregate 0 None None None) /\
     (stat_count agg = 0%nat ->
        stat_avg agg = None /\ stat_min agg = None /\ stat_max agg = None) /\
     ((0 < stat_count agg)%nat ->
        is_Some (stat_avg agg) /\ is_Some (stat_min agg) /\
        is_Some (stat_max agg)))
  /\
  (forall start finish,
     operand sd = Some start -> operand ed = Some finish ->
     exists flag agg,
       fst (stats clock location sensor start_date end_date st)
       = inr (mkResponse flag agg)).
Proof.
  intros Hinj Hr Hp.
  assert (Hcompute : forall df,
     let a := _compute_stats_from_df df in
     (df = [] -> a = mkAggregate 0 None None None) /\
     (stat_count a = 0%nat ->
        stat_avg a = None /\ stat_min a = None /\ stat_max a = None) /\
     ((0 < stat_count a)%nat ->
        is_Some (stat_avg a) /\ is_Some (stat_min a) /\ is_Some (stat_max a))).
  { intros df a. subst a. unfold _compute_stats_from_df.
    destruct (Nat.eqb_spec (length df) 0) as [H0 | Hn]; simpl.
    - repeat split; auto; lia.
    - repeat split; eauto; try lia.
      intros ->. simpl in Hn. lia. }
  split; [exact Hcompute |]. split.
  - intros flag agg Hout.
    destruct (stats clock location sensor start_date end_date st)
      as [out st'] eqn:Hst. cbn [fst] in Hout. subst out.
    destruct (stats_reachable_inv Hinj _ _ _ _ _ _ _ _ _ _ _ Hr Hp Hst)
      as (sd' & ed' & Hs & He & Hbody). cbn [body] in Hbody. subst agg.
    destruct (Hcompute (select data location sensor sd' ed'))
      as (Hnil & Hz & Hpos).
    split; [| split; [exact Hz | exact Hpos]].
    intros start finish Hs' He' Hnone.
    rewrite Hs in Hs'. rewrite He in He'.
    injection Hs' as <-. injection He' as <-.
    apply Hnil. now rewrite select_matches.
  - intros start finish Hs He.
    destruct (stats_reachable Hinj _ _ _ location sensor _ _ _ _ _ _
                Hr Hp Hs He) as (flag & st' & ->).
    eauto.
Qed.

Lemma empty_result_has_no_statistics_witness :
  exists flag,
    fst (@stats Sample.pandas Sample.noon (Some "cellar") None None None
           Sample.loaded)
    = inr (mkResponse flag (mkAggregate 0 None None None)).
Proof.
  destruct (@empty_result_has_no_statistics Sample.pandas Sample.noon
              Sample.frame Sample.loaded (Some "cellar") None None None
              None None SampleFacts.sample_isoformat_injective
              (reachable_loaded _) eq_refl)
    as (_ & Hall & Hex).
  destruct (Hex None None eq_refl eq_refl) as (flag & agg & Hs).
  exists flag. rewrite Hs.
  destruct (Hall flag agg Hs) as (He & _).
  now rewrite (He None None eq_refl eq_refl eq_refl).
Defined.

(** C3, as the code has it.  For two filters whose dates parse, the
    normaliser yields the same key exactly when the filters are the same
    after normalisation: the same trimmed, lowercased location and sensor
    and the same parsed dates, a date with a time zone being the same as
    another only at the same offset from UTC.  So two filters that differ
    only in surrounding white space or letter case of location and sensor,
    or in how one date is spelled, get one key; two filters that differ in
    one dimension, or where a field is absent in one and present in the
    other, get different keys.  That different dates get different keys
    rests on [Timestamp.isoformat] writing them differently. *)
Theorem cache_key_identifies_normalized_filter {pd : Pandas}
    (clock1 clock2 : Clock) (l1 s1 a1 b1 l2 s2 a2 b2 : option string)
    (sd1 ed1 sd2 ed2 : option Datetime) :
  isoformat_injective ->
  ascii_filter l1 -> ascii_filter s1 -> ascii_filter l2 -> ascii_filter s2 ->
  parse_dates clock1 a1 b1 = inr (sd1, ed1) ->
  parse_dates clock2 a2 b2 = inr (sd2, ed2) ->
  (normalize clock1 l1 s1 a1 b1 = normalize clock2 l2 s2 a2 b2 <->
   Spec.same_filter l1 l2 /\ Spec.same_filter s1 s2 /\
   sd1 = sd2 /\ ed1 = ed2) /\
  ((forall x y, l1 = Some x -> l2 = Some y ->
                Spec.differ_in_padding_and_case_only x y) ->
   (forall x y, s1 = Some x -> s2 = Some y ->
                Spec.differ_in_padding_and_case_only x y) ->
   (l1 = None <-> l2 = None) -> (s1 = None <-> s2 = None) ->
   sd1 = sd2 -> ed1 = ed2 ->
   normalize clock1 l1 s1 a1 b1 = normalize clock2 l2 s2 a2 b2) /\
  (absent_vs_present l1 l2 \/ absent_vs_present s1 s2 \/
   absent_vs_present a1 a2 \/ absent_vs_present b1 b2 ->
   normalize clock1 l1 s1 a1 b1 <> normalize clock2 l2 s2 a2 b2).
Proof.
  intros Hinj _ _ _ _ Hp1 Hp2.
  assert (Hiff : normalize clock1 l1 s1 a1 b1 = normalize clock2 l2 s2 a2 b2
            <-> Spec.same_filter l1 l2 /\ Spec.same_filter s1 s2 /\
                sd1 = sd2 /\ ed1 = ed2).
  { unfold normalize. rewrite Hp1, Hp2, !SpecFacts.same_filter_norm. split.
    - intros H. apply (request_key_inj Hinj). congruence.
    - intros (Hl & Hs & -> & ->). f_equal. rewrite !request_key_norm.
      now rewrite Hl, Hs. }
  assert (Htext : forall o1 o2 : option string,
             (forall x y, o1 = Some x -> o2 = Some y ->
                          Spec.differ_in_padding_and_case_only x y) ->
             (o1 = None <-> o2 = None) -> Spec.same_filter o1 o2).
  { intros [x|] [y|] Hxy Hnone; simpl.
    - exists (PyStr.lower (PyStr.strip x)).
      split; apply SpecFacts.canonical_norm; [reflexivity |].
      now apply SpecFacts.padding_and_case_norm, Hxy.
    - destruct Hnone as [_ H]. now specialize (H eq_refl).
    - destruct Hnone as [H _]. now specialize (H eq_refl).
    - exact I. }
  assert (Hpresent : forall o1 o2 : option string,
             absent_vs_present o1 o2 -> ~ Spec.same_filter o1 o2).
  { intros [x|] [y|] [[H1 H2] | [H1 H2]]; simpl; try congruence; tauto. }
  assert (Hdate : forall now o d now' o' d',
             _parse_date now o = inr d -> _parse_date now' o' = inr d' ->
             absent_vs_present o o' -> d <> d').
  { intros now o d now' o' d' H H' Habs.
    apply _parse_date_inr in H, H'.
    destruct Habs as [[-> Hne] | [Hne ->]].
    - destruct o' as [x'|]; [| congruence].
      destruct H' as (t & _ & ->). subst d. discriminate.
    - destruct o as [x|]; [| congruence].
      destruct H as (t & _ & ->). subst d'. discriminate. }
  split; [exact Hiff |]. split.
  - intros Hl Hs Hln Hsn Hsd Hed. apply Hiff. auto.
  - apply parse_dates_inr in Hp1 as [Ha1 Hb1].
    apply parse_dates_inr in Hp2 as [Ha2 Hb2].
    intros H Heq. apply Hiff in Heq as (Hl & Hs & Hsd & Hed).
    destruct H as [H | [H | [H | H]]].
    + now apply (Hpresent _ _ H).
    + now apply (Hpresent _ _ H).
    + now apply (Hdate _ _ _ _ _ _ Ha1 Ha2 H).
    + now apply (Hdate _ _ _ _ _ _ Hb1 Hb2 H).
Qed.

Lemma cache_key_identifies_normalized_filter_witness :
  @normalize Sample.pandas Sample.noon
    (Some " LAB") (Some "Temp") (Some " 007 ") None
  = @normalize Sample.pandas Sample.later
      (Some "lab ") (Some "TEMP  ") (Some "7") None.
Proof.
  refine (proj1 (proj2 (@cache_key_identifies_normalized_filter Sample.pandas
            Sample.noon Sample.later
            (Some " LAB") (Some "Temp") (Some " 007 ") None
            (Some "lab ") (Some "TEMP  ") (Some "7") None
            (Some (Naive (Instant 7))) None (Some (Naive (Instant 7))) None
            SampleFacts.sample_isoformat_injective _ _ _ _ eq_refl eq_refl))
            _ _ _ _ eq_refl eq_refl).
  - intros x [= <-]. reflexivity.
  - intros x [= <-]. reflexivity.
  - intros x [= <-]. reflexivity.
  - intros x [= <-]. reflexivity.
  - intros x y [= <-] [= <-].
    exists " ", "LAB", "", "", "lab", " ".
    repeat split; try (cbv; lia).
    repeat (constructor; [first [now left | cbv; lia] |]). constructor.
  - intros x y [= <-] [= <-].
    exists "", "Temp", "", "", "TEMP", "  ".
    repeat split; try (cbv; lia).
    repeat (constructor; [first [now left | cbv; lia] |]). constructor.
  - split; discriminate.
  - split; discriminate.
Defined.

(** C3 as first stated does not hold of the code: "100Z" and "105+5"
    spell the same instant, at two offsets from UTC, and the two filters
    get different keys. *)
Lemma same_instant_other_offset_other_key :
  @to_datetime Sample.pandas 0 "100Z" = Some (Aware 100 0) /\
  @to_datetime Sample.pandas 0 "105+5" = Some (Aware 100 5) /\
  @normalize Sample.pandas Sample.noon None None (Some "100Z") None
  <> @normalize Sample.pandas Sample.noon None None (Some "105+5") None.
Proof.
  split; [reflexivity |]. split; [reflexivity | discriminate].
Qed.




(** C5, as the code has it.  Once the data set is loaded, a request with a
    date string that does not parse fails with status 400 and a message
    that carries the raw string of an offending date, and leaves the
    globals, the cache included, as they were; and a request fails with
    status 400 only if one of its date strings does not parse. *)
Theorem invalid_date_rejected_when_loaded {pd : Pandas}
    (clock : Clock) (data : DataFrame) (st : State)
    (location sensor start_date end_date : option string) :
  _df st = Some data ->
  ((exists raw, offending clock start_date end_date raw) ->
   exists raw,
     offending clock start_date end_date raw /\
     stats clock location sensor start_date end_date st
     = (inl (mkHTTPException 400 ("Invalid date format: " +:+ raw)), st)) /\
  (forall msg st',
     stats clock location sensor start_date end_date st
     = (inl (mkHTTPException 400 msg), st') ->
     st' = st /\ exists raw, offending clock start_date end_date raw).
Proof.
  intros Hd. split.
  - intros [raw0 Hoff].
    destruct (parse_dates_offending _ _ _ _ Hoff) as [e He].
    destruct (parse_dates_inl _ _ _ _ He) as (raw & Hraw & ->).
    exists raw. split; [exact Hraw |].
    now apply (stats_invalid _ _ _ _ _ _ data).
  - intros msg st'. unfold stats. rewrite Hd.
    destruct (parse_dates clock start_date end_date) as [e | [sd ed]] eqn:Hp.
    + intros [= <- <-]. split; [reflexivity |].
      destruct (parse_dates_inl _ _ _ _ Hp) as (raw & Hraw & _). eauto.
    + destruct (_cache st !! request_key location sensor sd ed);
        [discriminate |].
      destruct (filter_rows data location sensor sd ed); discriminate.
Qed.

Lemma invalid_date_rejected_when_loaded_witness :
  exists raw,
    @offending Sample.pandas Sample.noon (Some "not-a-date") None raw /\
    @stats Sample.pandas Sample.noon None None (Some "not-a-date") None
      Sample.loaded
    = (inl (mkHTTPException 400 ("Invalid date format: " +:+ raw)),
       Sample.loaded).
Proof.
  apply (@invalid_date_rejected_when_loaded Sample.pandas Sample.noon
           Sample.frame Sample.loaded None None (Some "not-a-date") None
           eq_refl).
  exists "not-a-date". left. split; reflexivity.
Defined.

(** C5 as first stated does not hold of the code: before the data set is
    loaded a request with an unparseable date is answered with status 500,
    "Data not loaded", not with the validation error. *)
Lemma invalid_date_before_load_is_unavailable :
  @offending Sample.pandas Sample.noon (Some "not-a-date") None "not-a-date"
  /\
  @stats Sample.pandas Sample.noon None None (Some "not-a-date") None
    Sample.not_loaded
  = (inl (mkHTTPException 500 "Data not loaded"), Sample.not_loaded) /\
  forall msg,
    fst (@stats Sample.pandas Sample.noon None None (Some "not-a-date") None
           Sample.not_loaded)
    <> inl (mkHTTPException 400 msg).
Proof.
  split; [left; split; reflexivity |].
  split; [reflexivity |]. intros msg. simpl. discriminate.
Qed.

(** C6, as the code has it.  For a request whose dates do not depend on
    the wall clock, normalisation is a function of the raw filter alone:
    whenever it runs it gives the same outcome, and the key it gives is
    the trimmed, lowercased location and sensor and the ISO form of the
    parsed dates, the absent marker standing for an absent field.  In
    every loaded state, whatever the cache holds and whatever calls came
    before, /stats acts on that outcome: a rejected date ends the call
    with the globals untouched, and a key is the only entry of the cache
    that the call may change. *)
Theorem normalization_is_pure {pd : Pandas}
    (clock1 clock2 : Clock)
    (location sensor start_date end_date : option string) :
  clock_free start_date end_date ->
  ascii_filter location -> ascii_filter sensor ->
  normalize clock1 location sensor start_date end_date
  = normalize clock2 location sensor start_date end_date /\
  (forall key,
     normalize clock1 location sensor start_date end_date = inr key ->
     exists kl ks ka kb,
       key = (kl, ks, ka, kb) /\
       key_field location kl /\ key_field sensor ks /\
       key_date (clock_start clock1) start_date ka /\
       key_date (clock_end clock1) end_date kb) /\
  (forall data st,
     _df st = Some data ->
     let out := stats clock1 location sensor start_date end_date st in
     _df (snd out) = Some data /\
     match normalize clock1 location sensor start_date end_date with
     | inl e => out = (inl (mkHTTPException 400 e), st)
     | inr key =>
         forall other, other <> key ->
                       _cache (snd out) !! other = _cache st !! other
     end).
Proof.
  intros Hfree _ _. split; [| split].
  - unfold normalize, parse_dates, _parse_date.
    destruct start_date as [x|], end_date as [y|];
      rewrite ?(Hfree (clock_start clock1) (clock_start clock2) x) by auto;
      rewrite ?(Hfree (clock_end clock1) (clock_end clock2) y) by auto;
      reflexivity.
  - intros key. unfold normalize.
    destruct (parse_dates clock1 start_date end_date) as [e | [sd ed]] eqn:Hp;
      [discriminate |].
    intros [= <-]. rewrite request_key_norm.
    apply parse_dates_inr in Hp as [Ha Hb].
    apply _parse_date_inr in Ha, Hb.
    eexists _, _, _, _. split; [reflexivity |].
    assert (Hfield : forall o, key_field o (norm_field o)).
    { intros [x|]; simpl; [| reflexivity].
      eexists. split; [reflexivity |]. now apply SpecFacts.canonical_norm. }
    split; [apply Hfield |]. split; [apply Hfield |]. split.
    + destruct start_date as [x|]; simpl.
      * destruct Ha as (t & Ht & ->). eauto.
      * now subst sd.
    + destruct end_date as [y|]; simpl.
      * destruct Hb as (t & Ht & ->). eauto.
      * now subst ed.
  - intros data st Hd out. subst out.
    split; [now rewrite stats_keeps_df |].
    unfold normalize, stats. rewrite Hd.
    destruct (parse_dates clock1 start_date end_date) as [e | [sd ed]];
      [reflexivity |].
    intros other Hother.
    destruct (_cache st !! request_key location sensor sd ed); [reflexivity |].
    destruct (filter_rows data location sensor sd ed); [| reflexivity].
    cbn [snd _cache]. now rewrite lookup_insert_ne by congruence.
Qed.

Lemma normalization_is_pure_witness :
  @normalize Sample.pandas Sample.noon (Some " LAB") None (Some "007") None
  = @normalize Sample.pandas Sample.later (Some " LAB") None (Some "007") None.
Proof.
  apply (@normalization_is_pure Sample.pandas Sample.noon Sample.later
           (Some " LAB") None (Some "007") None).
  - intros now now' x [[= <-] | H]; [reflexivity | discriminate].
  - intros x [= <-]. reflexivity.
  - intros x H. discriminate.
Defined.

(** C6 as first stated does not hold of the code: the key of the request
    with start date "now" depends on when the normaliser runs. *)
Lemma now_key_depends_on_clock :
  @normalize Sample.pandas Sample.noon None None (Some "now") None
  <> @normalize Sample.pandas Sample.later None None (Some "now") None.
Proof.
  discriminate.
Qed.

(** C7. No call of /stats changes the data set, and the cache only grows:
    every entry that was in the cache before the call is there after it,
    under the same key and with the same value. *)
Theorem stats_preserves_dataset_and_cache {pd : Pandas}
    (clock : Clock) (st : State)
    (location sensor start_date end_date : option string) :
  let st' := snd (stats clock location sensor start_date end_date st) in
  _df st' = _df st /\
  (forall key agg,
     _cache st !! key = Some agg -> _cache st' !! key = Some agg) /\
  _cache st ⊆ _cache st'.
Proof.
  intros st'. subst st'. split; [apply stats_keeps_df |]. split.
  - intros key agg. apply stats_cache_grows.
  - apply map_subseteq_spec. intros key agg. apply stats_cache_grows.
Qed.




(** C9. A location or sensor filter made of white space only (the empty
    string included) is a filter that is present: its component of the
    cache key is the empty string, which is not the absent marker, and the
    rows it keeps are those whose column equals the empty string, not all
    rows. *)
Theorem blank_filter_is_present (ws : string) :
  PyStr.blank ws = true ->
  (forall other start_date end_date,
     _make_cache_key (Some ws) other start_date end_date
     = (Some "", norm_field other, start_date, end_date) /\
     _make_cache_key (Some ws) other start_date end_date
     <> _make_cache_key None other start_date end_date) /\
  (forall other start_date end_date,
     _make_cache_key other (Some ws) start_date end_date
     = (norm_field other, Some "", start_date, end_date) /\
     _make_cache_key other (Some ws) start_date end_date
     <> _make_cache_key other None start_date end_date) /\
  (forall data other sd ed,
     select data (Some ws) other sd ed
     = List.filter (fun r => String.eqb (col_location r) "")
         (select data None other sd ed) /\
     forall r, In r (select data (Some ws) other sd ed) ->
               col_location r = "") /\
  (forall data other sd ed,
     select data other (Some ws) sd ed
     = List.filter (fun r => String.eqb (col_sensor r) "")
         (select data other None sd ed) /\
     forall r, In r (select data other (Some ws) sd ed) ->
               col_sensor r = "").
Proof.
  intros Hws.
  assert (Hnorm : PyStr.lower (PyStr.strip ws) = "").
  { now rewrite (PyStrFacts.strip_blank _ Hws). }
  assert (Hkey : forall l s a b,
            _make_cache_key l s a b = (norm_field l, norm_field s, a, b)).
  { intros l s [a|] [b|]; reflexivity. }
  split; [| split; [| split]].
  - intros other a b. rewrite !Hkey. simpl. rewrite Hnorm.
    split; [reflexivity | discriminate].
  - intros other a b. rewrite !Hkey. simpl. rewrite Hnorm.
    split; [reflexivity | discriminate].
  - intros data other sd ed.
    assert (Heq : select data (Some ws) other sd ed
                  = List.filter (fun r => String.eqb (col_location r) "")
                      (select data None other sd ed)).
    { rewrite !select_matches, filter_twice. apply List.filter_ext.
      intros r. unfold matches. rewrite Hnorm.
      destruct (String.eqb (col_location r) ""); simpl;
        rewrite ?andb_true_r, ?andb_false_r; reflexivity. }
    split; [exact Heq |]. intros r Hr. rewrite Heq in Hr.
    apply List.filter_In in Hr as [_ Hr]. now apply String.eqb_eq.
  - intros data other sd ed.
    assert (Heq : select data other (Some ws) sd ed
                  = List.filter (fun r => String.eqb (col_sensor r) "")
                      (select data other None sd ed)).
    { rewrite !select_matches, filter_twice. apply List.filter_ext.
      intros r. unfold matches. rewrite Hnorm.
      destruct (String.eqb (col_sensor r) ""); simpl;
        rewrite ?andb_true_r, ?andb_false_r; reflexivity. }
    split; [exact Heq |]. intros r Hr. rewrite Heq in Hr.
    apply List.filter_In in Hr as [_ Hr]. now apply String.eqb_eq.
Qed.

Lemma blank_filter_is_present_witness :
  _make_cache_key (Some "  ") None None None = (Some "", None, None, None) /\
  select Sample.frame (Some "  ") None None None
  = [mkReading 40 "" "temp" (Float64 2.5)].
Proof.
  destruct (blank_filter_is_present "  " eq_refl) as (Hk & _ & Hs & _).
  split.
  - exact (proj1 (Hk None None None)).
  - rewrite (proj1 (Hs Sample.frame None None None)). reflexivity.
Defined.




(** ** Further properties of the code *)

(** *** Canonical form of the key *)

(** X1. The location and sensor components of a cache key are in canonical
    form: trimming or lowercasing them again changes nothing, so building a
    key from the components of a key gives that key back; the two date
    components are passed through as they are. *)
Theorem cache_key_is_canonical
    (location sensor start_date end_date : option string) :
  let '(l, s, a, b) := _make_cache_key location sensor start_date end_date in
  _make_cache_key l s a b = (l, s, a, b) /\
  (forall x, l = Some x -> PyStr.strip x = x /\ PyStr.lower x = x) /\
  (forall x, s = Some x -> PyStr.strip x = x /\ PyStr.lower x = x) /\
  a = start_date /\ b = end_date.
Proof.
  assert (Hkey : forall l s a b,
            _make_cache_key l s a b = (norm_field l, norm_field s, a, b)).
  { intros l s [a|] [b|]; reflexivity. }
  assert (Hcanon : forall o x,
            norm_field o = Some x -> PyStr.strip x = x /\ PyStr.lower x = x).
  { intros [y|] x; simpl; [| discriminate]. intros [= <-]. split.
    - rewrite PyStrFacts.lower_strip. apply PyStrCanon.strip_idem.
    - apply PyStrCanon.lower_idem. }
  rewrite Hkey. rewrite Hkey, !norm_field_idem.
  repeat split; try reflexivity;
    match goal with
    | H : norm_field _ = Some _ |- _ => destruct (Hcanon _ _ H); assumption
    end.
Qed.

(** *** The selection *)

(** X3. The order of the rows of the frame does not matter to what is
    selected: on two frames that hold the same rows in a different order,
    every filter selects the same rows, each as often, and so leads to the
    same count. *)
Theorem row_order_is_irrelevant {pd : Pandas}
    (data data' : DataFrame) (location sensor : option string)
    (sd ed : option Timestamp) :
  Permutation data data' ->
  Permutation (select data location sensor sd ed)
    (select data' location sensor sd ed) /\
  stat_count (_compute_stats_from_df (select data location sensor sd ed))
  = stat_count (_compute_stats_from_df (select data' location sensor sd ed)).
Proof.
  intros Hperm.
  assert (Hsel : Permutation (select data location sensor sd ed)
                   (select data' location sensor sd ed)).
  { rewrite !select_matches. now apply filter_permutation. }
  split; [exact Hsel |].
  rewrite !compute_stats_count. now apply Permutation_length.
Qed.

Lemma row_order_is_irrelevant_witness :
  Permutation (select Sample.frame (Some "lab") None None None)
    (select (List.rev Sample.frame) (Some "lab") None None None).
Proof.
  apply (@row_order_is_irrelevant Sample.pandas Sample.frame
           (List.rev Sample.frame)).
  apply Permutation_rev.
Defined.

(** X4. The selection never invents, duplicates or reorders rows: what it
    returns is a sub-list of the frame, so no count exceeds the number of
    rows; and with no filter at all it returns the whole frame. *)
Theorem select_is_sublist {pd : Pandas}
    (data : DataFrame) (location sensor : option string)
    (sd ed : option Timestamp) :
  select data location sensor sd ed `sublist_of` data /\
  (stat_count (_compute_stats_from_df (select data location sensor sd ed))
   <= length data)%nat /\
  select data None None None None = data.
Proof.
  assert (Hsub : select data location sensor sd ed `sublist_of` data).
  { rewrite select_matches. apply filter_is_sublist. }
  split; [exact Hsub |]. split; [| reflexivity].
  apply sublist_length in Hsub. now rewrite compute_stats_count.
Qed.

(** X5. Filters compose: selecting by location first and by the other
    filters on the result, or by sensor first and by the rest afterwards,
    gives the rows that one selection with all the filters gives. *)
Theorem select_composes
    (data : DataFrame) (location sensor : option string)
    (sd ed : option Timestamp) :
  select (select data location None None None) None sensor sd ed
  = select data location sensor sd ed /\
  select (select data None sensor None None) location None sd ed
  = select data location sensor sd ed /\
  select (select data None None sd ed) location sensor None None
  = select data location sensor sd ed.
Proof.
  rewrite !select_matches, !filter_twice.
  repeat split; apply List.filter_ext; intros r; unfold matches;
    destruct location, sensor, sd, ed; simpl;
    rewrite ?andb_true_r; try reflexivity;
    repeat match goal with
           | |- context [String.eqb ?a ?b] => destruct (String.eqb a b)
           | |- context [ts_ge ?a ?b] => destruct (ts_ge a b)
           | |- context [ts_le ?a ?b] => destruct (ts_le a b)
           end; reflexivity.
Qed.

(** X6. Both date bounds are inclusive.  The range from [t] to [t] selects
    exactly the rows stamped [t], and two ranges that meet at [t] both
    count these rows: for a <= t <= b the counts over [a, t] and [t, b]
    add up to the count over [a, b] plus the number of rows stamped [t]. *)
Theorem adjacent_ranges_share_boundary
    (data : DataFrame) (location sensor : option string) (a t b : Z) :
  (a <= t <= b)%Z ->
  let range from to :=
    select data location sensor (Some (Instant from)) (Some (Instant to)) in
  let stamped :=
    List.filter (fun r => Z.eqb (col_timestamp r) t)
      (select data location sensor None None) in
  range t t = stamped /\
  (forall r, In r (range a b) <->
             In r (select data location sensor None None) /\
             (a <= col_timestamp r <= b)%Z) /\
  (length (range a t) + length (range t b)
   = length (range a b) + length stamped)%nat.
Proof.
  intros Hatb range stamped. subst range stamped. cbv beta.
  rewrite !select_matches, filter_twice.
  assert (Hin : forall lo hi r,
             matches location sensor (Some (Instant lo)) (Some (Instant hi)) r
             = matches location sensor None None r
               && ((lo <=? col_timestamp r)%Z && (col_timestamp r <=? hi)%Z)).
  { intros lo hi r. unfold matches, ts_ge, ts_le.
    now rewrite !andb_true_r, andb_assoc. }
  split; [| split].
  - apply List.filter_ext. intros r. rewrite Hin. f_equal.
    destruct (Z.eqb_spec (col_timestamp r) t);
      destruct (Z.leb_spec t (col_timestamp r));
      destruct (Z.leb_spec (col_timestamp r) t); simpl; try reflexivity; lia.
  - intros r. rewrite !List.filter_In, Hin, !andb_true_iff, !Z.leb_le. tauto.
  - apply length_filter_balance. intros r. rewrite !Hin.
    destruct (matches location sensor None None r); simpl;
      [| reflexivity].
    destruct (Z.eqb_spec (col_timestamp r) t);
      destruct (Z.leb_spec a (col_timestamp r));
      destruct (Z.leb_spec t (col_timestamp r));
      destruct (Z.leb_spec (col_timestamp r) t);
      destruct (Z.leb_spec (col_timestamp r) b); simpl; lia.
Qed.

Lemma adjacent_ranges_share_boundary_witness :
  select Sample.frame None None (Some (Instant 30)) (Some (Instant 30))
  = List.filter (fun r => Z.eqb (col_timestamp r) 30)
      (select Sample.frame None None None None).
Proof.
  apply (adjacent_ranges_share_boundary Sample.frame None None 10 30 40).
  lia.
Defined.

(** X14. Narrowing a query never adds rows: the rows selected within a
    date range are a sub-list of the rows selected within any wider range,
    and the rows selected with a filter are a sub-list of the rows selected
    without it, so the count can only go down. *)
Theorem narrower_query_selects_fewer
    (data : DataFrame) (location sensor : option string)
    (sd ed : option Timestamp) (a b a' b' : Z) :
  (a' <= a)%Z -> (b <= b')%Z ->
  select data location sensor (Some (Instant a)) (Some (Instant b))
    `sublist_of`
    select data location sensor (Some (Instant a')) (Some (Instant b')) /\
  select data location sensor sd ed
    `sublist_of` select data None sensor sd ed /\
  select data location sensor sd ed
    `sublist_of` select data location None sd ed /\
  select data location sensor sd ed
    `sublist_of` select data location sensor None ed /\
  select data location sensor sd ed
    `sublist_of` select data location sensor sd None.
Proof.
  intros Ha Hb. rewrite !select_matches.
  repeat split; apply filter_implies_sublist; intros r; unfold matches;
    rewrite !andb_true_iff; intros [[[H1 H2] H3] H4]; repeat split;
    try assumption.
  - unfold ts_ge in *. apply Z.leb_le in H3. apply Z.leb_le. lia.
  - unfold ts_le in *. apply Z.leb_le in H4. apply Z.leb_le. lia.
Qed.

Lemma narrower_query_selects_fewer_witness :
  select Sample.frame None None (Some (Instant 20)) (Some (Instant 30))
    `sublist_of`
    select Sample.frame None None (Some (Instant 10)) (Some (Instant 40)).
Proof.
  apply (narrower_query_selects_fewer Sample.frame None None None None
           20 30 10 40); lia.
Defined.

(** *** Outcomes of the handler *)

(** X7. The handler has exactly four outcomes, decided in this order:
    status 500 "Data not loaded" exactly when the frame is not loaded;
    otherwise status 400 exactly when a supplied date string is rejected;
    otherwise a result when the key is cached or the dates can be compared
    with the column; otherwise, for a date with a time zone and a key that
    is not cached, the uncaught [TypeError].  Whenever it raises, the
    globals are left as they were. *)
Theorem stats_outcomes {pd : Pandas}
    (clock : Clock) (st : State)
    (location sensor start_date end_date : option string) :
  let out := stats clock location sensor start_date end_date st in
  (fst out = inl (mkHTTPException 500 "Data not loaded") <-> _df st = None) /\
  ((exists msg, fst out = inl (mkHTTPException 400 msg)) <->
   _df st <> None /\ exists raw, offending clock start_date end_date raw) /\
  (fst out = inl TypeError <->
   _df st <> None /\
   exists sd ed,
     parse_dates clock start_date end_date = inr (sd, ed) /\
     _cache st !! request_key location sensor sd ed = None /\
     (operand sd = None \/ operand ed = None)) /\
  ((exists response, fst out = inr response) <->
   _df st <> None /\
   exists sd ed,
     parse_dates clock start_date end_date = inr (sd, ed) /\
     (_cache st !! request_key location sensor sd ed <> None \/
      (operand sd <> None /\ operand ed <> None))) /\
  (forall e, fst out = inl e ->
     snd out = st /\
     (e = mkHTTPException 500 "Data not loaded" \/
      (exists msg, e = mkHTTPException 400 msg) \/
      e = TypeError)).
Proof.
  intros out. subst out. unfold stats.
  destruct (_df st) as [data|] eqn:Hd.
  - destruct (parse_dates clock start_date end_date) as [e | [sd ed]] eqn:Hp.
    + destruct (parse_dates_inl _ _ _ _ Hp) as (raw & Hraw & He).
      cbn [fst snd]. split; [split; discriminate |].
      split; [split; [intros _; split; [discriminate | eauto] | eauto] |].
      split; [split; [discriminate |
                      intros (_ & sd & ed & H & _); discriminate] |].
      split.
      * split; [intros [? H]; discriminate |
                intros (_ & sd & ed & H & _); discriminate].
      * intros e0 [= <-]. split; [reflexivity | right; left; eauto].
    + assert (Hok : forall raw, ~ offending clock start_date end_date raw).
      { apply parse_dates_ok_iff. eauto. }
      destruct (_cache st !! request_key location sensor sd ed) as [v|] eqn:Hk.
      * cbn [fst snd]. split; [split; discriminate |].
        split; [split; [intros [? H]; discriminate
                       | intros [_ [raw Hraw]]; now destruct (Hok raw)] |].
        split; [split; [discriminate |] |].
        { intros (_ & sd' & ed' & [= <- <-] & Hk' & _). congruence. }
        split; [| intros e0 H; discriminate].
        split; [intros _ | eauto].
        split; [discriminate |]. exists sd, ed. split; [reflexivity |].
        left. congruence.
      * pose proof (filter_rows_none data location sensor sd ed) as Hnone.
        destruct (filter_rows data location sensor sd ed) as [df|] eqn:Hf;
          cbn [fst snd].
        -- assert (Hcmp : operand sd <> None /\ operand ed <> None).
           { apply filter_rows_inv in Hf as (sd' & ed' & Hs & He & _).
             split; congruence. }
           split; [split; discriminate |].
           split; [split; [intros [? H]; discriminate
                          | intros [_ [raw Hraw]]; now destruct (Hok raw)] |].
           split; [split; [discriminate |] |].
           { intros (_ & sd' & ed' & [= <- <-] & _ & [H | H]); tauto. }
           split; [| intros e0 H; discriminate].
           split; [intros _ | eauto].
           split; [discriminate |]. exists sd, ed. split; [reflexivity |].
           now right.
        -- assert (Hcmp : operand sd = None \/ operand ed = None)
             by now apply Hnone.
           split; [split; discriminate |].
           split; [split; [intros [? H]; discriminate
                          | intros [_ [raw Hraw]]; now destruct (Hok raw)] |].
           split.
           { split; [intros _ | reflexivity].
             split; [discriminate |]. exists sd, ed. auto. }
           split.
           { split; [intros [? H]; discriminate |].
             intros (_ & sd' & ed' & [= <- <-] & [H | [H1 H2]]);
               [congruence | tauto]. }
           intros e0 [= <-]. split; [reflexivity | right; right; reflexivity].
  - cbn [fst snd]. split; [split; reflexivity |].
    split; [split; [intros [? H]; discriminate | intros [H _]; congruence] |].
    split; [split; [discriminate | intros [H _]; congruence] |].
    split; [split; [intros [? H]; discriminate | intros [H _]; congruence] |].
    intros e0 [= <-]. split; [reflexivity | left; reflexivity].
Qed.



(** X8. The dates are validated in the order start_date, end_date and the
    first failure is the one reported: a rejected start_date is named in
    the message whatever end_date is, and a rejected end_date is named
    only when start_date is absent or parses. *)
Theorem first_invalid_date_is_reported {pd : Pandas}
    (clock : Clock) (data : DataFrame) (st : State)
    (location sensor start_date end_date : option string) (raw : string) :
  _df st = Some data ->
  (start_date = Some raw ->
   to_datetime (clock_start clock) raw = None ->
   stats clock location sensor start_date end_date st
   = (inl (mkHTTPException 400 ("Invalid date format: " +:+ raw)), st)) /\
  (end_date = Some raw ->
   to_datetime (clock_end clock) raw = None ->
   (forall s, start_date = Some s ->
              to_datetime (clock_start clock) s <> None) ->
   stats clock location sensor start_date end_date st
   = (inl (mkHTTPException 400 ("Invalid date format: " +:+ raw)), st)).
Proof.
  intros Hd. split.
  - intros -> Hraw. apply (stats_invalid _ _ _ _ _ _ data); [exact Hd |].
    unfold parse_dates, _parse_date. now rewrite Hraw.
  - intros -> Hraw Hstart.
    apply (stats_invalid _ _ _ _ _ _ data); [exact Hd |].
    unfold parse_dates, _parse_date. destruct start_date as [s|].
    + destruct (to_datetime (clock_start clock) s) eqn:Hs;
        [now rewrite Hraw |].
      now destruct (Hstart s eq_refl).
    + now rewrite Hraw.
Qed.

Lemma first_invalid_date_is_reported_witness :
  @stats Sample.pandas Sample.noon None None (Some "soon") (Some "later")
    Sample.loaded
  = (inl (mkHTTPException 400 ("Invalid date format: " +:+ "soon")),
     Sample.loaded).
Proof.
  apply (proj1 (@first_invalid_date_is_reported Sample.pandas Sample.noon
                  Sample.frame Sample.loaded None None (Some "soon")
                  (Some "later") "soon" eq_refl));
    reflexivity.
Defined.

(** *** The cache *)

(** X9. A call changes the globals only when it answers MISS: the key it
    stores was not in the cache before, it holds the returned object
    afterwards and the cache has exactly one more entry.  A HIT and an
    error leave the globals as they were. *)
Theorem only_a_miss_grows_the_cache {pd : Pandas}
    (clock : Clock) (st : State)
    (location sensor start_date end_date : option string) :
  let out := stats clock location sensor start_date end_date st in
  match fst out with
  | inr (mkResponse MISS agg) =>
      exists key,
        normalize clock location sensor start_date end_date = inr key /\
        _cache st !! key = None /\
        _cache (snd out) = <[key := agg]> (_cache st) /\
        size (_cache (snd out)) = S (size (_cache st))
  | _ => snd out = st
  end.
Proof.
  intros out. subst out. unfold stats, normalize.
  destruct (_df st) as [data|]; [| reflexivity].
  destruct (parse_dates clock start_date end_date) as [e | [sd ed]];
    [reflexivity |].
  destruct (_cache st !! request_key location sensor sd ed) eqn:Hk;
    [reflexivity |].
  destruct (filter_rows data location sensor sd ed); [| reflexivity].
  cbn [fst snd _cache]. eexists. split; [reflexivity |].
  split; [exact Hk |]. split; [reflexivity |].
  now apply map_size_insert_None.
Qed.

(** X10. Once a request has been answered, every request with the same
    normalised key (the same filter written with other padding, case or
    date spelling), whenever it is made, is a HIT that returns the very
    same object and changes nothing. *)
Theorem equivalent_request_hits {pd : Pandas}
    (clock1 clock2 : Clock) (data : DataFrame) (st st1 : State)
    (l1 s1 a1 b1 l2 s2 a2 b2 : option string)
    (key : CacheKey) (flag : XCache) (agg : AggregateResult) :
  _df st = Some data ->
  normalize clock1 l1 s1 a1 b1 = inr key ->
  normalize clock2 l2 s2 a2 b2 = inr key ->
  stats clock1 l1 s1 a1 b1 st = (inr (mkResponse flag agg), st1) ->
  stats clock2 l2 s2 a2 b2 st1 = (inr (mkResponse HIT agg), st1).
Proof.
  unfold normalize. intros Hd H1 H2.
  destruct (parse_dates clock1 a1 b1) as [e1 | [sd1 ed1]] eqn:Hp1;
    [discriminate |].
  destruct (parse_dates clock2 a2 b2) as [e2 | [sd2 ed2]] eqn:Hp2;
    [discriminate |].
  injection H1 as H1. injection H2 as H2.
  unfold stats at 1. rewrite Hd, Hp1, H1.
  destruct (_cache st !! key) as [v|] eqn:Hk.
  - intros [= <- <- <-].
    apply (stats_hit _ _ _ _ _ _ data sd2 ed2); [exact Hd | exact Hp2 |].
    now rewrite H2.
  - destruct (filter_rows data l1 s1 sd1 ed1); [| discriminate].
    intros [= <- <- <-].
    apply (stats_hit _ _ _ _ _ _ data sd2 ed2); [reflexivity | exact Hp2 |].
    cbn [_cache]. rewrite H2. apply lookup_insert_eq.
Qed.

Lemma equivalent_request_hits_witness :
  let first :=
    @stats Sample.pandas Sample.noon (Some " LAB") None (Some "10") None
      Sample.loaded in
  @stats Sample.pandas Sample.later (Some "lab  ") None (Some " 010") None
    (snd first)
  = (inr (mkResponse HIT
            (mkAggregate 3 (Some 3%float) (Some 1%float) (Some 5%float))),
     snd first).
Proof.
  apply (@equivalent_request_hits Sample.pandas Sample.noon Sample.later
           Sample.frame Sample.loaded _
           (Some " LAB") None (Some "10") None
           (Some "lab  ") None (Some " 010") None
           (Some "lab", None, Some "T10", None) MISS);
    reflexivity.
Defined.

(** X11. Requests with different keys do not disturb each other: serving
    one of them first does not change the answer to the other, and the
    globals after both calls do not depend on the order of the calls. *)
Theorem different_keys_commute {pd : Pandas}
    (clock1 clock2 : Clock) (data : DataFrame) (st : State)
    (l1 s1 a1 b1 l2 s2 a2 b2 : option string) (k1 k2 : CacheKey) :
  _df st = Some data ->
  normalize clock1 l1 s1 a1 b1 = inr k1 ->
  normalize clock2 l2 s2 a2 b2 = inr k2 ->
  k1 <> k2 ->
  fst (stats clock2 l2 s2 a2 b2 (snd (stats clock1 l1 s1 a1 b1 st)))
  = fst (stats clock2 l2 s2 a2 b2 st) /\
  snd (stats clock2 l2 s2 a2 b2 (snd (stats clock1 l1 s1 a1 b1 st)))
  = snd (stats clock1 l1 s1 a1 b1 (snd (stats clock2 l2 s2 a2 b2 st))).
Proof.
  unfold normalize. intros Hd H1 H2 Hne.
  destruct (parse_dates clock1 a1 b1) as [e1 | [sd1 ed1]] eqn:Hp1;
    [discriminate |].
  destruct (parse_dates clock2 a2 b2) as [e2 | [sd2 ed2]] eqn:Hp2;
    [discriminate |].
  injection H1 as H1. injection H2 as H2. subst k1 k2.
  destruct st as [df cache]. cbn [_df] in Hd. subst df.
  unfold stats. cbn [_df _cache]. rewrite Hp1, Hp2.
  destruct (cache !! request_key l1 s1 sd1 ed1) as [v1|] eqn:Hk1;
    destruct (cache !! request_key l2 s2 sd2 ed2) as [v2|] eqn:Hk2;
    destruct (filter_rows data l1 s1 sd1 ed1) as [df1|] eqn:Hf1;
    destruct (filter_rows data l2 s2 sd2 ed2) as [df2|] eqn:Hf2;
    cbn [fst snd _df _cache];
    rewrite ?Hp1, ?Hp2, ?Hk1, ?Hk2;
    rewrite ?lookup_insert_ne by congruence;
    rewrite ?Hk1, ?Hk2, ?Hf1, ?Hf2; cbn [fst snd _df _cache];
    try (split; reflexivity).
  split; [reflexivity |]. f_equal. now apply insert_insert_ne.
Qed.

Lemma different_keys_commute_witness :
  fst (@stats Sample.pandas Sample.later (Some "roof") None None None
         (snd (@stats Sample.pandas Sample.noon (Some "lab") None None None
                 Sample.loaded)))
  = fst (@stats Sample.pandas Sample.later (Some "roof") None None None
           Sample.loaded).
Proof.
  apply (@different_keys_commute Sample.pandas Sample.noon Sample.later
           Sample.frame Sample.loaded
           (Some "lab") None None None (Some "roof") None None None
           (Some "lab", None, None, None) (Some "roof", None, None, None));
    (reflexivity || discriminate).
Defined.







(** X13. The key decides the rows: when [Timestamp.isoformat] writes
    different dates differently, two requests with the same cache key
    have the same parsed dates, get the same outcome of the selection (the
    same rows of any frame, or the [TypeError] for both), and so the same
    aggregate. *)
Theorem same_key_same_rows {pd : Pandas}
    (data : DataFrame) (l1 s1 l2 s2 : option string)
    (sd1 ed1 sd2 ed2 : option Datetime) :
  isoformat_injective ->
  request_key l1 s1 sd1 ed1 = request_key l2 s2 sd2 ed2 ->
  sd1 = sd2 /\ ed1 = ed2 /\
  filter_rows data l1 s1 sd1 ed1 = filter_rows data l2 s2 sd2 ed2 /\
  (forall start finish,
     select data l1 s1 start finish = select data l2 s2 start finish /\
     _compute_stats_from_df (select data l1 s1 start finish)
     = _compute_stats_from_df (select data l2 s2 start finish)).
Proof.
  intros Hinj Hkey.
  pose proof (filter_rows_key Hinj data _ _ _ _ _ _ _ _ Hkey) as Hf.
  apply (request_key_inj Hinj) in Hkey as (Hl & Hs & -> & ->).
  split; [reflexivity |]. split; [reflexivity |]. split; [exact Hf |].
  intros start finish.
  rewrite (select_norm data l1 l2 s1 s2 start finish Hl Hs).
  split; reflexivity.
Qed.

Lemma same_key_same_rows_witness :
  select Sample.frame (Some " LAB") (Some "Temp") (Some (Instant 10)) None
  = select Sample.frame (Some "lab") (Some "TEMP ") (Some (Instant 10)) None.
Proof.
  apply (@same_key_same_rows Sample.pandas Sample.frame
           (Some " LAB") (Some "Temp") (Some "lab") (Some "TEMP ")
           (Some (Naive (Instant 10))) None (Some (Naive (Instant 10))) None
           SampleFacts.sample_isoformat_injective eq_refl).
Defined.
